(** * MealShare backend: a shallow embedding of [backend/database.js] and
    [backend/server.js], and the properties of its routes.

    Layout
    - [Schema]: the DDL of [database.js] over a catalogue of named tables.
    - rows, the [database] record and the SQL statements [server.js] issues;
    - [task]: a route handler as the chain of callbacks the source writes,
      one node per asynchronous statement;
    - [run] (one request at a time) and [interleave] (several requests in
      flight, one statement at a time);
    - the routes themselves, then the theorems. *)

From Stdlib Require Import ZArith QArith Lqa String Ascii List Lia Bool.
From stdpp Require Import base tactics option list sorting gmap strings.

Local Open Scope string_scope.
Local Open Scope Z_scope.

(** ** JavaScript values at the types the routes read them *)

(** [!x] in a guard: the empty string, the number 0 and an absent field
    ([undefined] / [null]) are all falsy. Request fields are modelled at
    their documented JSON types: text fields as strings, an absent field as
    [None]. [portions_available] is a JSON number, which no route checks to
    be an integer or to be positive: it is modelled as a rational, so that
    0.5 and -5 are values like any other (the rounding of doubles in their
    last bit or beyond 2^53 is outside the model). *)
Class Truthy (A : Type) := truthy : A -> bool.

#[global] Instance truthy_string : Truthy string :=
  fun s => negb (String.eqb s "").
#[global] Instance truthy_number : Truthy Q :=
  fun q => negb (Qeq_bool q 0).
#[global] Instance truthy_option {A} `{Truthy A} : Truthy (option A) :=
  fun o => match o with Some x => truthy x | None => false end.

Definition falsy {A} `{Truthy A} (x : A) : bool := negb (truthy x).

(** [x || d] on an optional string. *)
Definition or_default (x : option string) (d : string) : string :=
  match x with
  | Some s => if truthy s then s else d
  | None => d
  end.

(** [s.split(" ")]: every single space separates, so the result is never
    empty and may hold empty pieces. *)
Fixpoint split (sep : ascii) (s : string) : list string :=
  match s with
  | EmptyString => [EmptyString]
  | String c s' =>
      if Ascii.eqb c sep then EmptyString :: split sep s'
      else match split sep s' with
           | [] => [String c EmptyString]
           | w :: ws => String c w :: ws
           end
  end.

(** [msg.includes(sub)] *)
Fixpoint includes (sub s : string) : bool :=
  String.prefix sub s ||
  match s with
  | EmptyString => false
  | String _ s' => includes sub s'
  end.

(** ** [database.js]: schema creation *)

Module Schema.

Inductive coltype := INTEGER | TEXT | DATETIME.

Inductive constraint :=
| PRIMARY_KEY_AUTOINCREMENT
| NOT_NULL
| UNIQUE
| DEFAULT_CURRENT_TIMESTAMP
| REFERENCES (table column : string).

Record column := col {
  col_name : string;
  col_type : coltype;
  col_constraints : list constraint
}.

Inductive value := VNull | VInt (z : Z) | VText (s : string).

(** A table of the file: its declared columns and its rows. *)
Record table := mktable {
  columns : list column;
  rows : list (list value)
}.

(** The database file: the tables it holds, by name. *)
Abbreviation store := (gmap string table).

(** [CREATE TABLE IF NOT EXISTS name (...)]: only the name is looked at. *)
Definition create_table_if_not_exists (name : string) (cols : list column)
    (s : store) : store :=
  match s !! name with
  | Some _ => s
  | None => <[name := mktable cols []]> s
  end.

Definition users_columns : list column :=
  [ col "id" INTEGER [PRIMARY_KEY_AUTOINCREMENT];
    col "name" TEXT [NOT_NULL];
    col "email" TEXT [UNIQUE; NOT_NULL];
    col "password_hash" TEXT [NOT_NULL];
    col "role" TEXT [NOT_NULL];
    col "created_at" DATETIME [DEFAULT_CURRENT_TIMESTAMP] ].

Definition meals_columns : list column :=
  [ col "id" INTEGER [PRIMARY_KEY_AUTOINCREMENT];
    col "merchant_id" INTEGER [NOT_NULL; REFERENCES "users" "id"];
    col "title" TEXT [NOT_NULL];
    col "description" TEXT [];
    col "portions_available" INTEGER [NOT_NULL];
    col "pickup_time" DATETIME [NOT_NULL];
    col "created_at" DATETIME [DEFAULT_CURRENT_TIMESTAMP] ].

Definition reservations_columns : list column :=
  [ col "id" INTEGER [PRIMARY_KEY_AUTOINCREMENT];
    col "user_id" INTEGER [NOT_NULL; REFERENCES "users" "id"];
    col "meal_id" INTEGER [NOT_NULL; REFERENCES "meals" "id"];
    col "created_at" DATETIME [DEFAULT_CURRENT_TIMESTAMP] ].

(** [db.serialize(() => { ... })]: the three statements, in order. *)
Definition serialize (s : store) : store :=
  create_table_if_not_exists "reservations" reservations_columns
    (create_table_if_not_exists "meals" meals_columns
       (create_table_if_not_exists "users" users_columns s)).

Definition schema_tables : gset string := {[ "users"; "meals"; "reservations" ]}.

(** A store that already holds data in all three tables. *)
Definition populated : store :=
  <["users" := mktable users_columns
       [[VInt 1; VText "Ana"; VText "ana@example.org"; VText "$2b$10$x";
         VText "merchant"; VText "2024-05-01 10:00:00"]]]>
  (<["meals" := mktable meals_columns
       [[VInt 1; VInt 1; VText "Soup"; VText ""; VInt 4;
         VText "2024-05-02 18:00:00"; VText "2024-05-01 11:00:00"]]]>
  (<["reservations" := mktable reservations_columns []]> ∅)).

End Schema.

(** ** Rows of the three tables (columns as declared in [database.js]) *)

(** Timestamps ([CURRENT_TIMESTAMP], [datetime('now', ...)]) have a
    resolution of one second and a fixed-width text form whose order is the
    order of time; they are modelled as a number of seconds. *)

Module users.
Record row := mk {
  id : Z;
  name : string;
  email : string;
  password_hash : string;
  role : string;
  created_at : Z
}.
End users.

Module meals.
Record row := mk {
  id : Z;
  merchant_id : Z;
  title : string;
  description : string;
  portions_available : Q;
  pickup_time : string;
  created_at : Z
}.
End meals.

Module reservations.
Record row := mk {
  id : Z;
  user_id : Z;
  meal_id : Z;
  created_at : Z
}.
End reservations.

(** A row of [SELECT meals.*, users.name AS merchant_name]. *)
Module listing.
Record row := mk {
  meal : meals.row;
  merchant_name : string
}.
End listing.

(** The connection: the three tables in rowid order and SQLite's
    [last_insert_rowid], which [this.lastID] reads after every [db.run]. *)
Record database := mkdb {
  tbl_users : list users.row;
  tbl_meals : list meals.row;
  tbl_reservations : list reservations.row;
  last_insert_rowid : Z
}.

Definition empty_db : database := mkdb [] [] [] 0.

(** [INTEGER PRIMARY KEY AUTOINCREMENT]: one more than the largest key ever
    used; no route deletes, so that is the largest key present. *)
Definition next_rowid (ids : list Z) : Z := 1 + foldr Z.max 0 ids.

(** ** The statements of [server.js] *)

Inductive stmt : Type -> Type :=
| insertUserSql (name email hash role : string) : stmt Z
| userByEmailSql (email : string) : stmt (option users.row)
| insertMealSql (merchant_id : Z) (title description : string)
                (portions_available : Q) (pickup_time : string) : stmt Z
| listMealsSql : stmt (list listing.row)
| recentReservationSql (userId : Z) : stmt (option reservations.row)
| mealSql (mealId : Z) : stmt (option meals.row)
| insertSql (userId mealId : Z) : stmt Z
| updateSql (mealId : Z) : stmt Z.

(** What a callback receives: [(err, value)]. *)
Inductive outcome (T : Type) : Type :=
| Ok (value : T)
| Err (message : string).
Arguments Ok {T} value.
Arguments Err {T} message.

(** What the environment decides for one statement: the wall clock when it
    executes, and whether the storage layer fails it (busy, I/O, full). *)
Record env := mkenv {
  now : Z;
  fault : option string
}.

Definition three_days : Z := 3 * 24 * 60 * 60.

Definition newer_first (a b : Z) : Prop := b <= a.
#[global] Instance newer_first_dec a b : Decision (newer_first a b) :=
  Z_le_dec b a.

Definition listing_order (a b : listing.row) : Prop :=
  newer_first (meals.created_at (listing.meal a)) (meals.created_at (listing.meal b)).
#[global] Instance listing_order_dec a b : Decision (listing_order a b) :=
  newer_first_dec _ _.

Definition reservation_order (a b : reservations.row) : Prop :=
  newer_first (reservations.created_at a) (reservations.created_at b).
#[global] Instance reservation_order_dec a b : Decision (reservation_order a b) :=
  newer_first_dec _ _.

(** [FROM meals INNER JOIN users ON meals.merchant_id = users.id] *)
Definition join_merchant (us : list users.row) (m : meals.row) : list listing.row :=
  map (fun u => listing.mk m (users.name u))
      (filter (fun u => meals.merchant_id m = users.id u) us).

Definition select_listing (d : database) : list listing.row :=
  merge_sort listing_order (flat_map (join_merchant (tbl_users d)) (tbl_meals d)).

(** [WHERE user_id = ? AND created_at > datetime('now', '-3 days')
     ORDER BY created_at DESC LIMIT 1] *)
Definition is_recent (t : Z) (userId : Z) (r : reservations.row) : Prop :=
  reservations.user_id r = userId /\ t - three_days < reservations.created_at r.
#[global] Instance is_recent_dec t u r : Decision (is_recent t u r).
Proof. unfold is_recent. apply _. Defined.

Definition select_recent (t : Z) (userId : Z) (d : database) : option reservations.row :=
  head (merge_sort reservation_order (filter (is_recent t userId) (tbl_reservations d))).

Definition decrement (mealId : Z) (m : meals.row) : meals.row :=
  if Z.eqb (meals.id m) mealId
  then meals.mk (meals.id m) (meals.merchant_id m) (meals.title m)
                (meals.description m) (meals.portions_available m - 1)%Q
                (meals.pickup_time m) (meals.created_at m)
  else m.

Definition unique_failed : string :=
  "SQLITE_CONSTRAINT: UNIQUE constraint failed: users.email".

(** One statement against the connection at clock reading [t]. Foreign keys
    are declared but SQLite does not enforce them unless the pragma is set,
    and [database.js] does not set it. *)
Definition perform {T} (t : Z) (q : stmt T) (d : database) : outcome T * database :=
  match q in stmt T return outcome T * database with
  | insertUserSql name email hash role =>
      if existsb (fun u => String.eqb (users.email u) email) (tbl_users d)
      then (Err unique_failed, d)
      else
        let i := next_rowid (map users.id (tbl_users d)) in
        (Ok i, mkdb (tbl_users d ++ [users.mk i name email hash role t])
                    (tbl_meals d) (tbl_reservations d) i)
  | userByEmailSql email =>
      (Ok (find (fun u => String.eqb (users.email u) email) (tbl_users d)), d)
  | insertMealSql merchant title descr portions pickup =>
      let i := next_rowid (map meals.id (tbl_meals d)) in
      (Ok i, mkdb (tbl_users d)
                  (tbl_meals d ++ [meals.mk i merchant title descr portions pickup t])
                  (tbl_reservations d) i)
  | listMealsSql => (Ok (select_listing d), d)
  | recentReservationSql userId => (Ok (select_recent t userId d), d)
  | mealSql mealId =>
      (Ok (find (fun m => Z.eqb (meals.id m) mealId) (tbl_meals d)), d)
  | insertSql userId mealId =>
      let i := next_rowid (map reservations.id (tbl_reservations d)) in
      (Ok i, mkdb (tbl_users d) (tbl_meals d)
                  (tbl_reservations d ++ [reservations.mk i userId mealId t]) i)
  | updateSql mealId =>
      (Ok (last_insert_rowid d),
       mkdb (tbl_users d) (map (decrement mealId) (tbl_meals d))
            (tbl_reservations d) (last_insert_rowid d))
  end.

(** The statement as the callback sees it: [(err, _)] when the storage
    layer fails it, the result otherwise. *)
Definition exec {T} (e : env) (q : stmt T) (d : database) : outcome T * database :=
  match fault e with
  | Some msg => (Err msg, d)
  | None => perform (now e) q d
  end.

(** ** Handlers as callback chains *)

(** A handler either answers, or issues a statement and continues in its
    callback, which runs when the statement has completed (at clock reading
    [now] of that step). *)
Inductive task (R : Type) : Type :=
| Respond (r : R)
| Db {T : Type} (q : stmt T) (callback : Z -> outcome T -> task R).
Arguments Respond {R} r.
Arguments Db {R T} q callback.

Definition step {R} (e : env) (t : task R) (d : database) : task R * database :=
  match t with
  | Respond r => (t, d)
  | Db q callback => let '(o, d') := exec e q d in (callback (now e) o, d')
  end.

(** One request served with nothing else in flight; [e i] is the
    environment of its [i]-th statement. *)
Fixpoint run {R} (t : task R) (e : nat -> env) (d : database) : R * database :=
  match t with
  | Respond r => (r, d)
  | Db q callback =>
      let '(o, d') := exec (e 0%nat) q d in
      run (callback (now (e 0%nat)) o) (fun i => e (S i)) d'
  end.

(** Several requests in flight on the one connection: each schedule entry
    lets the statement pending in request [i] execute and runs its callback. *)
Fixpoint interleave {R} (schedule : list (nat * env)) (pool : list (task R))
    (d : database) : list (task R) * database :=
  match schedule with
  | [] => (pool, d)
  | (i, e) :: rest =>
      match pool !! i with
      | None => interleave rest pool d
      | Some t => let '(t', d') := step e t d in
                  interleave rest (<[i := t']> pool) d'
      end
  end.

Definition calm (t : Z) : nat -> env := fun _ => mkenv t None.

(** ** Requests and responses *)

(** [req.body]: the fields the routes destructure. *)
Module body.
Record t := mk {
  name : option string;
  email : option string;
  password : option string;
  role : option string;
  title : option string;
  description : option string;
  portions_available : option Q;
  pickup_time : option string
}.
Definition empty : t := mk None None None None None None None None.
End body.

(** [req.user]: the payload [login] signs into the token. *)
Module claims.
Record t := mk {
  id : Z;
  email : string;
  role : string
}.
End claims.

(** [req.params.id] is taken at its numeric value: a text that names no row
    behaves like a key that is not there. *)
Record request := mkreq {
  authorization : option string;
  params_id : Z;
  req_body : body.t
}.

Inductive json : Type :=
| error_json (error : string)
| message_json (message : string)
| user_json (id : Z) (name email role : string) (created_at : Z)
| login_json (message token : string) (id : Z) (name email role : string)
| meal_json (id merchant_id : Z) (title description : string)
            (portions_available : Q) (pickup_time : string) (created_at : Z)
| rows_json (rows : list listing.row)
| reservation_json (message : string) (id user_id meal_id : Z).

Record response := res {
  status : Z;
  json_body : json
}.

Definition is_success (r : response) : bool :=
  (200 <=? status r) && (status r <? 300).

(** ** The routes of [server.js] *)

Section Routes.

(** [jsonwebtoken] and [bcrypt] are libraries: what they compute is a
    parameter of the development. [jwt_verify] yields the payload when
    signature and expiry check out at the given time; [bcrypt_hash] takes the
    cost and the salt it draws; both bcrypt calls may report an error. *)
Variable JWT_SECRET : string.
Variable jwt_sign : claims.t -> string -> string -> Z -> string.
Variable jwt_verify : string -> string -> Z -> option claims.t.
Variable bcrypt_hash : string -> Z -> string -> outcome string.
Variable bcrypt_compare : string -> string -> outcome bool.

(** Middleware: [authHeader && authHeader.split(" ")[1]], then verify. *)
Definition bearer (authHeader : option string) : option string :=
  match authHeader with
  | Some h => if truthy h then split " " h !! 1%nat else Some h
  | None => None
  end.

Definition authenticateToken (t : Z) (req : request)
    (next : claims.t -> task response) : task response :=
  match bearer (authorization req) with
  | Some token =>
      if falsy token then Respond (res 401 (error_json "Missing token."))
      else match jwt_verify token JWT_SECRET t with
           | None => Respond (res 403 (error_json "Invalid token."))
           | Some userData => next userData
           end
  | None => Respond (res 401 (error_json "Missing token."))
  end.

(** The request carries a token that verifies, at time [t], to [user]. *)
Definition authenticated (t : Z) (req : request) (user : claims.t) : Prop :=
  exists token, bearer (authorization req) = Some token /\
                truthy token = true /\
                jwt_verify token JWT_SECRET t = Some user.

Definition get_root (req : request) : task response :=
  Respond (res 200 (message_json "MealShare API is running 🚀")).

(** POST /register; [salt] is the salt bcrypt draws for this call. *)
Definition post_register (salt : string) (req : request) : task response :=
  match body.name (req_body req), body.email (req_body req),
        body.password (req_body req) with
  | Some name, Some email, Some password =>
      if falsy name || falsy email || falsy password
      then Respond (res 400 (error_json "Name, email and password are required."))
      else
        let userRole :=
          match body.role (req_body req) with
          | Some r => if String.eqb r "merchant" then "merchant" else "user"
          | None => "user"
          end in
        match bcrypt_hash password 10 salt with
        | Err _ => Respond (res 500 (error_json "Internal server error."))
        | Ok hash =>
            Db (insertUserSql name email hash userRole) (fun t r =>
              match r with
              | Err message =>
                  if includes "UNIQUE constraint failed" message
                  then Respond (res 400 (error_json "Email is already registered."))
                  else Respond (res 500 (error_json "Database error."))
              | Ok lastID =>
                  Respond (res 201 (user_json lastID name email userRole t))
              end)
        end
  | _, _, _ =>
      Respond (res 400 (error_json "Name, email and password are required."))
  end.

(** POST /login *)
Definition post_login (req : request) : task response :=
  match body.email (req_body req), body.password (req_body req) with
  | Some email, Some password =>
      if falsy email || falsy password
      then Respond (res 400 (error_json "Email and password are required."))
      else
        Db (userByEmailSql email) (fun t r =>
          match r with
          | Err _ => Respond (res 500 (error_json "Database error."))
          | Ok None => Respond (res 400 (error_json "User not found."))
          | Ok (Some user) =>
              match bcrypt_compare password (users.password_hash user) with
              | Ok true =>
                  let token :=
                    jwt_sign (claims.mk (users.id user) (users.email user)
                                        (users.role user))
                             JWT_SECRET "7d" t in
                  Respond (res 200 (login_json "Login successful!" token
                                      (users.id user) (users.name user)
                                      (users.email user) (users.role user)))
              | _ => Respond (res 400 (error_json "Incorrect password."))
              end
          end)
  | _, _ =>
      Respond (res 400 (error_json "Email and password are required."))
  end.

(** POST /meals, after the middleware. *)
Definition create_meal (req : request) (user : claims.t) : task response :=
  if negb (String.eqb (claims.role user) "merchant")
  then Respond (res 403 (error_json "Only merchants can create meals."))
  else
    match body.title (req_body req), body.portions_available (req_body req),
          body.pickup_time (req_body req) with
    | Some title, Some portions_available, Some pickup_time =>
        if falsy title || falsy portions_available || falsy pickup_time
        then Respond (res 400 (error_json "Title, portions and pickup_time are required."))
        else
          let description := or_default (body.description (req_body req)) "" in
          Db (insertMealSql (claims.id user) title description
                            portions_available pickup_time) (fun t r =>
            match r with
            | Err _ => Respond (res 500 (error_json "Database error."))
            | Ok lastID =>
                Respond (res 201 (meal_json lastID (claims.id user) title
                                    description portions_available pickup_time t))
            end)
    | _, _, _ =>
        Respond (res 400 (error_json "Title, portions and pickup_time are required."))
    end.

Definition post_meals (t : Z) (req : request) : task response :=
  authenticateToken t req (create_meal req).

(** GET /meals: no middleware. *)
Definition get_meals (req : request) : task response :=
  Db listMealsSql (fun _ r =>
    match r with
    | Err _ => Respond (res 500 (error_json "Database error."))
    | Ok rows => Respond (res 200 (rows_json rows))
    end).

(** POST /meals/:id/reserve, after the middleware. *)
Definition reserve (req : request) (user : claims.t) : task response :=
  let mealId := params_id req in
  let userId := claims.id user in
  if negb (String.eqb (claims.role user) "user")
  then Respond (res 403 (error_json "Only regular users can reserve meals."))
  else
    Db (recentReservationSql userId) (fun _ r =>
      match r with
      | Err _ => Respond (res 500 (error_json "Database error."))
      | Ok (Some recent) =>
          Respond (res 400 (error_json "You can only reserve one meal every 3 days."))
      | Ok None =>
          Db (mealSql mealId) (fun _ r =>
            match r with
            | Err _ => Respond (res 500 (error_json "Database error."))
            | Ok None => Respond (res 404 (error_json "Meal not found."))
            | Ok (Some meal) =>
                if Qle_bool (meals.portions_available meal) 0
                then Respond (res 400 (error_json "No portions left for this meal."))
                else
                  Db (insertSql userId mealId) (fun _ r =>
                    match r with
                    | Err _ => Respond (res 500 (error_json "Database error."))
                    | Ok _ =>
                        Db (updateSql mealId) (fun _ r =>
                          match r with
                          | Err _ => Respond (res 500 (error_json "Database error."))
                          | Ok lastID =>
                              Respond (res 201 (reservation_json
                                "Reservation created successfully."
                                lastID userId mealId))
                          end)
                    end)
            end)
      end).

Definition post_meals_reserve (t : Z) (req : request) : task response :=
  authenticateToken t req (reserve req).

(** The operations of the system, as requests to its routes. *)
Inductive operation : Type :=
| op_register (salt : string) (req : request)
| op_login (req : request)
| op_createMeal (t : Z) (req : request)
| op_listMeals (req : request)
| op_reserve (t : Z) (req : request).

Definition serve (o : operation) : task response :=
  match o with
  | op_register salt req => post_register salt req
  | op_login req => post_login req
  | op_createMeal t req => post_meals t req
  | op_listMeals req => get_meals req
  | op_reserve t req => post_meals_reserve t req
  end.

End Routes.

(** ** Vocabulary of the properties *)

(** The statements a request gets to execute when served alone, in order. *)
Inductive issued : Type :=
| Issued {T : Type} (q : stmt T).

Fixpoint trace {R} (t : task R) (e : nat -> env) (d : database) : list issued :=
  match t with
  | Respond _ => []
  | Db q callback =>
      let '(o, d') := exec (e 0%nat) q d in
      Issued q :: trace (callback (now (e 0%nat)) o) (fun i => e (S i)) d'
  end.

(** The answers of the reservation route, under the names of its failures. *)
Definition Forbidden : response :=
  res 403 (error_json "Only regular users can reserve meals.").
Definition CooldownActive : response :=
  res 400 (error_json "You can only reserve one meal every 3 days.").
Definition NotFound : response :=
  res 404 (error_json "Meal not found.").
Definition SoldOut : response :=
  res 400 (error_json "No portions left for this meal.").
Definition DatabaseError : response :=
  res 500 (error_json "Database error.").
Definition Reserved (lastID userId mealId : Z) : response :=
  res 201 (reservation_json "Reservation created successfully." lastID userId mealId).

(** The two refusals of POST /meals. *)
Definition MerchantsOnly : response :=
  res 403 (error_json "Only merchants can create meals.").
Definition MealFieldsRequired : response :=
  res 400 (error_json "Title, portions and pickup_time are required.").

(** The database after a reservation's two writes at time [t]. *)
Definition committed (t userId mealId : Z) (d : database) : database :=
  let i := next_rowid (map reservations.id (tbl_reservations d)) in
  mkdb (tbl_users d) (map (decrement mealId) (tbl_meals d))
       (tbl_reservations d ++ [reservations.mk i userId mealId t]) i.

(** [SELECT * FROM meals WHERE id = ?] *)
Definition find_meal (mealId : Z) (d : database) : option meals.row :=
  find (fun m => Z.eqb (meals.id m) mealId) (tbl_meals d).

Definition portions_nonneg (d : database) : Prop :=
  Forall (fun m => (0 <= meals.portions_available m)%Q) (tbl_meals d).

(** The number is an integer. *)
Definition whole (q : Q) : Prop := exists z : Z, (q == inject_Z z)%Q.

Definition portions_whole (d : database) : Prop :=
  Forall (fun m => whole (meals.portions_available m)) (tbl_meals d).

(** [SELECT * FROM users WHERE email = ?] *)
Definition find_user (email : string) (d : database) : option users.row :=
  find (fun u => String.eqb (users.email u) email) (tbl_users d).

(** The same store with every stored hash replaced. *)
Definition rehash_row (f : string -> string) (u : users.row) : users.row :=
  users.mk (users.id u) (users.name u) (users.email u)
           (f (users.password_hash u)) (users.role u) (users.created_at u).

Definition rehash (f : string -> string) (d : database) : database :=
  mkdb (map (rehash_row f) (tbl_users d)) (tbl_meals d) (tbl_reservations d)
       (last_insert_rowid d).

(** The meal's [merchant_id] is the key of a stored user. *)
Definition has_merchant (d : database) (m : meals.row) : Prop :=
  meals.merchant_id m ∈ map users.id (tbl_users d).
#[global] Instance has_merchant_dec d m : Decision (has_merchant d m).
Proof. unfold has_merchant. apply _. Defined.

(** ** Sample data *)

Definition sample_verify (token secret : string) (t : Z) : option claims.t :=
  if String.eqb token "ana" then Some (claims.mk 1 "ana@example.org" "merchant")
  else if String.eqb token "bo" then Some (claims.mk 2 "bo@example.org" "user")
  else if String.eqb token "cy" then Some (claims.mk 3 "cy@example.org" "user")
  else None.

Definition sample_sign (c : claims.t) (secret expiresIn : string) (t : Z) : string :=
  (claims.email c ++ "." ++ secret)%string.

Definition sample_hash (password : string) (cost : Z) (salt : string) : outcome string :=
  Ok (salt ++ "$" ++ password)%string.

Definition sample_compare (password hash : string) : outcome bool :=
  Ok (String.eqb hash ("salt$" ++ password)%string).

Definition ana : claims.t := claims.mk 1 "ana@example.org" "merchant".
Definition bo : claims.t := claims.mk 2 "bo@example.org" "user".
Definition cy : claims.t := claims.mk 3 "cy@example.org" "user".

(** One merchant, two users, one meal with a single portion left. *)
Definition one_portion : database :=
  mkdb [ users.mk 1 "Ana" "ana@example.org" "salt$soup" "merchant" 0;
         users.mk 2 "Bo" "bo@example.org" "salt$b" "user" 0;
         users.mk 3 "Cy" "cy@example.org" "salt$c" "user" 0 ]
       [ meals.mk 1 1 "Soup" "" 1 "2024-05-02 18:00:00" 10 ]
       [] 3.

(** The same store when the merchant published half a portion. *)
Definition half_portion : database :=
  mkdb (tbl_users one_portion)
       [ meals.mk 1 1 "Soup" "" (1 # 2) "2024-05-02 18:00:00" 10 ]
       [] 3.

(** The same with the portion gone and Bo's reservation one hour old at 3700. *)
Definition sold_out : database :=
  mkdb (tbl_users one_portion)
       [ meals.mk 1 1 "Soup" "" 0 "2024-05-02 18:00:00" 10 ]
       [ reservations.mk 1 2 1 100 ] 1.

Definition bearer_of (token : string) (mealId : Z) : request :=
  mkreq (Some ("Bearer " ++ token)%string) mealId body.empty.

Definition meal_body (portions : Q) : body.t :=
  body.mk None None None None (Some "Stew") None (Some portions)
          (Some "2024-05-03 12:00:00").

(** Bo and Cy both ask for the last portion of meal 1. *)
Definition race_pool : list (task response) :=
  [ post_meals_reserve "secret" sample_verify 200 (bearer_of "bo" 1);
    post_meals_reserve "secret" sample_verify 200 (bearer_of "cy" 1) ].

Definition at200 : env := mkenv 200 None.

(** Request 0 and request 1 take turns, one statement each. *)
Definition alternating : list (nat * env) :=
  [ (0, at200); (1, at200); (0, at200); (1, at200);
    (0, at200); (1, at200); (0, at200); (1, at200) ]%nat.

(** Request 0 runs to its answer before request 1 starts. *)
Definition one_after_another : list (nat * env) :=
  [ (0, at200); (0, at200); (0, at200); (0, at200);
    (1, at200); (1, at200); (1, at200); (1, at200) ]%nat.

(** A store without users in which a merchant whose token still verifies
    has published a meal. *)
Definition stale_token_store : database :=
  snd (run (post_meals "secret" sample_verify 200
              (mkreq (Some "Bearer ana") 0 (meal_body 3)))
           (calm 200) empty_db).

(** Bo reserved at 100 and again three days and 100 seconds later, Cy at
    200; meal 1 still has two portions. *)
Definition regular_customer : database :=
  mkdb (tbl_users one_portion)
       [ meals.mk 1 1 "Soup" "" 2 "2024-05-02 18:00:00" 10 ]
       [ reservations.mk 1 2 1 100;
         reservations.mk 2 3 1 200;
         reservations.mk 3 2 1 259400 ] 3.

(** A second meal, published later. *)
Definition two_meals : database :=
  mkdb (tbl_users one_portion)
       [ meals.mk 1 1 "Soup" "" 1 "2024-05-02 18:00:00" 10;
         meals.mk 2 1 "Stew" "" 3 "2024-05-03 12:00:00" 20 ]
       [] 2.

Definition login_request (email password : string) : request :=
  mkreq None 0
        (body.mk None (Some email) (Some password) None None None None None).

Definition failing_at (n : nat) (t : Z) : nat -> env :=
  fun i => mkenv t (if Nat.eqb i n then Some "SQLITE_BUSY: database is locked" else None).

(** ** Further vocabulary *)

(** No space in the text: [split] leaves it in one piece. *)
Fixpoint spaceless (s : string) : bool :=
  match s with
  | EmptyString => true
  | String c s' => negb (Ascii.eqb c " ") && spaceless s'
  end.

(** The same request under another [Authorization] header. *)
Definition with_authorization (h : option string) (req : request) : request :=
  mkreq h (params_id req) (req_body req).

Definition MissingToken : response := res 401 (error_json "Missing token.").
Definition InvalidToken : response := res 403 (error_json "Invalid token.").

(** The constraints the schema declares and SQLite enforces: the three
    primary keys and [email UNIQUE]. *)
Definition constraints_hold (d : database) : Prop :=
  NoDup (map users.id (tbl_users d)) /\
  NoDup (map meals.id (tbl_meals d)) /\
  NoDup (map reservations.id (tbl_reservations d)) /\
  NoDup (map users.email (tbl_users d)).

(** A meal up to its portions. *)
Definition same_meal (m m' : meals.row) : Prop :=
  meals.id m' = meals.id m /\ meals.merchant_id m' = meals.merchant_id m /\
  meals.title m' = meals.title m /\ meals.description m' = meals.description m /\
  meals.pickup_time m' = meals.pickup_time m /\
  meals.created_at m' = meals.created_at m /\
  (meals.portions_available m' <= meals.portions_available m)%Q.

(** [d'] extends [d]: users and reservations are the old rows followed by new
    ones; the meals are the old meals, each with the same columns and no more
    portions than before, followed by new ones. *)
Definition extends (d d' : database) : Prop :=
  (exists new, tbl_users d' = (tbl_users d ++ new)%list) /\
  (exists new, tbl_reservations d' = (tbl_reservations d ++ new)%list) /\
  (exists old new, tbl_meals d' = (old ++ new)%list /\ Forall2 same_meal (tbl_meals d) old).

Definition register_request (name email password : string)
    (role : option string) : request :=
  mkreq None 0
        (body.mk (Some name) (Some email) (Some password) role None None None None).

(** [role === "merchant" ? "merchant" : "user"] *)
Definition stored_role (role : option string) : string :=
  match role with
  | Some r => if String.eqb r "merchant" then "merchant" else "user"
  | None => "user"
  end.

Definition AlreadyRegistered : response :=
  res 400 (error_json "Email is already registered.").

(** What registration guarantees of every stored user. *)
Definition users_valid (d : database) : Prop :=
  Forall (fun u => (users.role u = "user" \/ users.role u = "merchant") /\
                   users.name u <> "" /\ users.email u <> "")
         (tbl_users d).

(** The database after the reservation's INSERT alone, at time [t]. *)
Definition inserted (t userId mealId : Z) (d : database) : database :=
  let i := next_rowid (map reservations.id (tbl_reservations d)) in
  mkdb (tbl_users d) (tbl_meals d)
       (tbl_reservations d ++ [reservations.mk i userId mealId t]) i.

(** Requests served one after the other, each with its own environment. *)
Fixpoint run_all {R} (ts : list (task R * (nat -> env))) (d : database)
    : list R * database :=
  match ts with
  | [] => ([], d)
  | (t, e) :: rest =>
      let '(r, d1) := run t e d in
      let '(rs, d2) := run_all rest d1 in
      (r :: rs, d2)
  end.

(** A client of the reservation route: who asks, and the environment of the
    request. *)
Definition reservation_of (req : request) (c : claims.t * (nat -> env))
    : task response * (nat -> env) :=
  (reserve req (fst c), snd c).

Definition never_reserved (user : claims.t) (d : database) : Prop :=
  forall r, r ∈ tbl_reservations d -> reservations.user_id r <> claims.id user.

Definition trouble_free (e : nat -> env) : Prop :=
  forall i, fault (e i) = None.

(** No two reservations of one user lie less than three days apart. *)
Definition cooldown_respected (d : database) : Prop :=
  forall r1 r2, r1 ∈ tbl_reservations d -> r2 ∈ tbl_reservations d ->
    reservations.user_id r1 = reservations.user_id r2 ->
    r1 = r2 \/
    three_days <= reservations.created_at r2 - reservations.created_at r1 \/
    three_days <= reservations.created_at r1 - reservations.created_at r2.

(** Two requests taking turns, one statement each; [es i] is the environment
    of the [i]-th statement executed. *)
Definition taking_turns (es : nat -> env) : list (nat * env) :=
  [ (0, es 0); (1, es 1); (0, es 2); (1, es 3);
    (0, es 4); (1, es 5); (0, es 6); (1, es 7) ]%nat.

(** Every reservation names a meal that is in the meals table. *)
Definition reservations_reference_meals (d : database) : Prop :=
  forall r, r ∈ tbl_reservations d ->
    exists m, m ∈ tbl_meals d /\ meals.id m = reservations.meal_id r.

Definition FieldsRequired : response :=
  res 400 (error_json "Name, email and password are required.").
Definition UserNotFound : response :=
  res 400 (error_json "User not found.").


(** * Properties *)

(** ** Schema creation *)

Section SchemaFacts.
Import Schema.

Lemma create_keeps name cols (s : store) n t :
  s !! n = Some t -> create_table_if_not_exists name cols s !! n = Some t.
Proof.
  intros Hn. unfold create_table_if_not_exists.
  destruct (s !! name) eqn:Hname; [done|].
  destruct (decide (name = n)) as [->|Hne]; [congruence|].
  by rewrite lookup_insert_ne.
Qed.

Lemma create_present name cols (s : store) :
  is_Some (s !! name) -> create_table_if_not_exists name cols s = s.
Proof. intros [t Ht]. unfold create_table_if_not_exists. by rewrite Ht. Qed.

Lemma create_exists name cols (s : store) :
  is_Some (create_table_if_not_exists name cols s !! name).
Proof.
  unfold create_table_if_not_exists.
  destruct (s !! name) eqn:Hname; [by rewrite Hname|].
  rewrite lookup_insert_eq. eauto.
Qed.

Lemma create_dom name cols (s : store) :
  dom (create_table_if_not_exists name cols s) = {[ name ]} ∪ dom s.
Proof.
  unfold create_table_if_not_exists.
  destruct (s !! name) eqn:Hname.
  - assert (name ∈ dom s) by (apply elem_of_dom; eauto). set_solver.
  - by rewrite dom_insert_L.
Qed.

Lemma create_is_Some name cols (s : store) n :
  is_Some (s !! n) -> is_Some (create_table_if_not_exists name cols s !! n).
Proof. intros [t Ht]. exists t. by apply create_keeps. Qed.

Lemma serialize_present (s : store) :
  is_Some (s !! "users") -> is_Some (s !! "meals") ->
  is_Some (s !! "reservations") -> serialize s = s.
Proof.
  intros Hu Hm Hr. unfold serialize.
  rewrite (create_present "users") by done.
  rewrite (create_present "meals") by done.
  by rewrite (create_present "reservations").
Qed.

(** C9. Schema creation is idempotent: on a store that already has the three
    tables it changes nothing (every table, hence every row, is as it was and
    no table is added); on any store it keeps every existing table with its
    rows, adds at most the three names, and running it a second time changes
    nothing, in particular from the empty store. *)
Theorem schema_creation_idempotent (s : store) :
  (is_Some (s !! "users") -> is_Some (s !! "meals") ->
   is_Some (s !! "reservations") -> serialize s = s) /\
  (forall n t, s !! n = Some t -> serialize s !! n = Some t) /\
  dom (serialize s) = schema_tables ∪ dom s /\
  serialize (serialize s) = serialize s /\
  serialize (serialize ∅) = serialize ∅.
Proof.
  assert (Hidem : forall s0 : store, serialize (serialize s0) = serialize s0).
  { intros s0. apply serialize_present; unfold serialize.
    - do 2 apply create_is_Some. apply create_exists.
    - apply create_is_Some. apply create_exists.
    - apply create_exists. }
  split; [apply serialize_present|].
  split.
  { intros n t Hn. unfold serialize. by do 3 apply create_keeps. }
  split.
  { unfold serialize, schema_tables. rewrite !create_dom. set_solver. }
  split; apply Hidem.
Qed.

End SchemaFacts.

Lemma schema_creation_idempotent_witness :
  Schema.serialize Schema.populated = Schema.populated.
Proof.
  apply (proj1 (schema_creation_idempotent Schema.populated));
    unfold Schema.populated.
  - rewrite lookup_insert_eq. eauto.
  - rewrite lookup_insert_ne by done. rewrite lookup_insert_eq. eauto.
  - do 2 (rewrite lookup_insert_ne by done). rewrite lookup_insert_eq. eauto.
Defined.

(** ** The reservation route, served alone *)

Lemma exec_calm {T} (e : env) (q : stmt T) (d : database) :
  fault e = None -> exec e q d = perform (now e) q d.
Proof. intros H. unfold exec. by rewrite H. Qed.

Lemma exec_fault {T} (e : env) (q : stmt T) (d : database) msg :
  fault e = Some msg -> exec e q d = (Err msg, d).
Proof. intros H. unfold exec. by rewrite H. Qed.

Lemma zero_is_falsy (q : Q) : (q == 0)%Q -> falsy q = true.
Proof.
  intros Hq. unfold falsy, truthy, truthy_number.
  by rewrite (proj2 (Qeq_bool_iff q 0) Hq).
Qed.

Lemma nonzero_is_truthy (q : Q) : ~ (q == 0)%Q -> falsy q = false.
Proof.
  intros Hq. unfold falsy, truthy, truthy_number.
  destruct (Qeq_bool q 0) eqn:Hb; [|done].
  by apply Qeq_bool_iff in Hb.
Qed.

Lemma portion_left (q : Q) : (0 < q)%Q -> Qle_bool q 0 = false.
Proof.
  intros Hq. destruct (Qle_bool q 0) eqn:Hb; [|done].
  apply Qle_bool_iff in Hb. lra.
Qed.

Lemma no_portion_left (q : Q) : (q <= 0)%Q -> Qle_bool q 0 = true.
Proof. apply Qle_bool_iff. Qed.

Lemma portion_test_false (q : Q) : Qle_bool q 0 = false -> (0 < q)%Q.
Proof.
  intros Hb. destruct (Qlt_le_dec 0 q) as [Hq|Hq]; [done|].
  apply no_portion_left in Hq. congruence.
Qed.

Section Reserve.
Variables (req : request) (user : claims.t) (e : nat -> env) (d : database).

Lemma reserve_forbidden :
  claims.role user <> "user" -> reserve req user = Respond Forbidden.
Proof.
  intros Hrole. unfold reserve.
  destruct (String.eqb_spec (claims.role user) "user") as [Heq|_]; [done|].
  reflexivity.
Qed.

Lemma reserve_cooldown r :
  claims.role user = "user" -> fault (e 0%nat) = None ->
  select_recent (now (e 0%nat)) (claims.id user) d = Some r ->
  run (reserve req user) e d = (CooldownActive, d) /\
  trace (reserve req user) e d = [Issued (recentReservationSql (claims.id user))].
Proof.
  intros Hrole H0 Hrec. unfold reserve. rewrite Hrole. simpl.
  rewrite !exec_calm by done. simpl. rewrite Hrec. done.
Qed.

Lemma reserve_past_cooldown :
  claims.role user = "user" -> fault (e 0%nat) = None ->
  select_recent (now (e 0%nat)) (claims.id user) d = None ->
  fault (e 1%nat) = None ->
  match find_meal (params_id req) d with
  | None =>
      run (reserve req user) e d = (NotFound, d) /\
      trace (reserve req user) e d =
        [Issued (recentReservationSql (claims.id user)); Issued (mealSql (params_id req))]
  | Some meal =>
      if Qle_bool (meals.portions_available meal) 0 then
        run (reserve req user) e d = (SoldOut, d) /\
        trace (reserve req user) e d =
          [Issued (recentReservationSql (claims.id user)); Issued (mealSql (params_id req))]
      else
        fault (e 2%nat) = None -> fault (e 3%nat) = None ->
        run (reserve req user) e d =
          (Reserved (next_rowid (map reservations.id (tbl_reservations d)))
                    (claims.id user) (params_id req),
           committed (now (e 2%nat)) (claims.id user) (params_id req) d) /\
        trace (reserve req user) e d =
          [Issued (recentReservationSql (claims.id user)); Issued (mealSql (params_id req));
           Issued (insertSql (claims.id user) (params_id req)); Issued (updateSql (params_id req))]
  end.
Proof.
  intros Hrole H0 Hrec H1. unfold reserve. rewrite Hrole. simpl.
  rewrite !exec_calm by done. simpl. rewrite Hrec. simpl.
  rewrite !exec_calm by done. simpl. unfold find_meal.
  destruct (find _ (tbl_meals d)) as [meal|]; [|done].
  destruct (Qle_bool (meals.portions_available meal) 0); [done|].
  intros H2 H3. simpl. rewrite !exec_calm by done. simpl.
  rewrite !exec_calm by done. done.
Qed.

End Reserve.

(** C4. The reservation route evaluates its steps in the order role check,
    cooldown check, meal lookup, availability check, commit. The first step
    that fails answers, the database is as it was and no later statement is
    issued: a requester whose role is not [user] gets Forbidden before any
    statement, whatever the meal; a user in cooldown gets CooldownActive
    after the one cooldown query, whatever the meal; then NotFound, then
    SoldOut, and only then the two writes. *)
Theorem reserve_steps_in_order (req : request) (user : claims.t)
    (e : nat -> env) (d : database) :
  let userId := claims.id user in
  let mealId := params_id req in
  (claims.role user <> "user" ->
     run (reserve req user) e d = (Forbidden, d) /\
     trace (reserve req user) e d = []) /\
  (claims.role user = "user" -> fault (e 0%nat) = None ->
   forall recent, select_recent (now (e 0%nat)) userId d = Some recent ->
     run (reserve req user) e d = (CooldownActive, d) /\
     trace (reserve req user) e d = [Issued (recentReservationSql userId)]) /\
  (claims.role user = "user" -> fault (e 0%nat) = None ->
   select_recent (now (e 0%nat)) userId d = None -> fault (e 1%nat) = None ->
   find_meal mealId d = None ->
     run (reserve req user) e d = (NotFound, d) /\
     trace (reserve req user) e d =
       [Issued (recentReservationSql userId); Issued (mealSql mealId)]) /\
  (claims.role user = "user" -> fault (e 0%nat) = None ->
   select_recent (now (e 0%nat)) userId d = None -> fault (e 1%nat) = None ->
   forall meal, find_meal mealId d = Some meal ->
   (meals.portions_available meal <= 0)%Q ->
     run (reserve req user) e d = (SoldOut, d) /\
     trace (reserve req user) e d =
       [Issued (recentReservationSql userId); Issued (mealSql mealId)]) /\
  (claims.role user = "user" -> fault (e 0%nat) = None ->
   select_recent (now (e 0%nat)) userId d = None -> fault (e 1%nat) = None ->
   forall meal, find_meal mealId d = Some meal ->
   (0 < meals.portions_available meal)%Q ->
   fault (e 2%nat) = None -> fault (e 3%nat) = None ->
     run (reserve req user) e d =
       (Reserved (next_rowid (map reservations.id (tbl_reservations d)))
                 userId mealId,
        committed (now (e 2%nat)) userId mealId d) /\
     trace (reserve req user) e d =
       [Issued (recentReservationSql userId); Issued (mealSql mealId);
        Issued (insertSql userId mealId); Issued (updateSql mealId)]).
Proof.
  intros userId mealId. repeat split.
  - rewrite reserve_forbidden by done. reflexivity.
  - rewrite reserve_forbidden by done. reflexivity.
  - eapply reserve_cooldown; eauto.
  - eapply reserve_cooldown; eauto.
  - pose proof (reserve_past_cooldown req user e d H H0 H1 H2) as Hp.
    simpl in Hp. fold mealId in Hp. rewrite H3 in Hp. apply Hp.
  - pose proof (reserve_past_cooldown req user e d H H0 H1 H2) as Hp.
    simpl in Hp. fold mealId in Hp. rewrite H3 in Hp. apply Hp.
  - pose proof (reserve_past_cooldown req user e d H H0 H1 H2) as Hp.
    simpl in Hp. fold mealId in Hp. rewrite H3 in Hp.
    rewrite no_portion_left in Hp by done. apply Hp.
  - pose proof (reserve_past_cooldown req user e d H H0 H1 H2) as Hp.
    simpl in Hp. fold mealId in Hp. rewrite H3 in Hp.
    rewrite no_portion_left in Hp by done. apply Hp.
  - pose proof (reserve_past_cooldown req user e d H H0 H1 H2) as Hp.
    simpl in Hp. fold mealId in Hp. rewrite H3 in Hp.
    rewrite portion_left in Hp by done. by apply Hp.
  - pose proof (reserve_past_cooldown req user e d H H0 H1 H2) as Hp.
    simpl in Hp. fold mealId in Hp. rewrite H3 in Hp.
    rewrite portion_left in Hp by done. by apply Hp.
Qed.

Lemma reserve_steps_in_order_witness :
  (* a merchant asking for a meal that is not there *)
  run (reserve (bearer_of "ana" 99) ana) (calm 3700) sold_out = (Forbidden, sold_out) /\
  (* a user in cooldown asking for a meal that is not there *)
  run (reserve (bearer_of "bo" 99) bo) (calm 3700) sold_out = (CooldownActive, sold_out) /\
  (* a user in cooldown asking for a meal that is sold out *)
  run (reserve (bearer_of "bo" 1) bo) (calm 3700) sold_out = (CooldownActive, sold_out) /\
  run (reserve (bearer_of "cy" 99) cy) (calm 3700) sold_out = (NotFound, sold_out) /\
  run (reserve (bearer_of "cy" 1) cy) (calm 3700) sold_out = (SoldOut, sold_out) /\
  run (reserve (bearer_of "cy" 1) cy) (calm 3700) one_portion =
    (Reserved 1 3 1, committed 3700 3 1 one_portion).
Proof.
  split.
  { apply (proj1 (reserve_steps_in_order (bearer_of "ana" 99) ana (calm 3700) sold_out)).
    discriminate. }
  split.
  { eapply (proj1 (proj2 (reserve_steps_in_order (bearer_of "bo" 99) bo (calm 3700) sold_out)));
      reflexivity. }
  split.
  { eapply (proj1 (proj2 (reserve_steps_in_order (bearer_of "bo" 1) bo (calm 3700) sold_out)));
      reflexivity. }
  split.
  { apply (proj1 (proj2 (proj2 (reserve_steps_in_order (bearer_of "cy" 99) cy (calm 3700) sold_out))));
      reflexivity. }
  split.
  { eapply (proj1 (proj2 (proj2 (proj2 (reserve_steps_in_order (bearer_of "cy" 1) cy (calm 3700) sold_out)))));
      [reflexivity..|]. simpl. lra. }
  { eapply (proj2 (proj2 (proj2 (proj2 (reserve_steps_in_order (bearer_of "cy" 1) cy (calm 3700) one_portion)))));
      [reflexivity..|simpl; lra|reflexivity|reflexivity]. }
Defined.

(** ** The cooldown window *)

Lemma select_recent_None t userId d :
  select_recent t userId d = None <->
  forall r, r ∈ tbl_reservations d -> ~ is_recent t userId r.
Proof.
  unfold select_recent. rewrite head_None. split.
  - intros Hnil r Hr Hrec.
    assert (Hin : r ∈ filter (is_recent t userId) (tbl_reservations d))
      by (apply list_elem_of_filter; done).
    rewrite <- (merge_sort_Permutation reservation_order) in Hin.
    rewrite Hnil in Hin. by apply not_elem_of_nil in Hin.
  - intros Hall.
    apply Permutation_nil_r. rewrite merge_sort_Permutation.
    destruct (filter _ _) as [|r l] eqn:Hf; [done|].
    assert (Hin : r ∈ filter (is_recent t userId) (tbl_reservations d))
      by (rewrite Hf; left).
    apply list_elem_of_filter in Hin as [Hrec Hr]. by destruct (Hall r Hr).
Qed.

Lemma select_recent_Some t userId d r :
  select_recent t userId d = Some r ->
  r ∈ tbl_reservations d /\ is_recent t userId r.
Proof.
  unfold select_recent. intros Hh. apply head_Some_elem_of in Hh.
  rewrite merge_sort_Permutation in Hh.
  apply list_elem_of_filter in Hh. tauto.
Qed.

(** What a user-role request answers once the cooldown query found nothing. *)
Lemma reserve_not_cooldown req user e d :
  claims.role user = "user" -> fault (e 0%nat) = None ->
  select_recent (now (e 0%nat)) (claims.id user) d = None ->
  fst (run (reserve req user) e d) <> CooldownActive /\
  trace (reserve req user) e d !! 1%nat = Some (Issued (mealSql (params_id req))).
Proof.
  intros Hrole H0 Hrec. unfold reserve. rewrite Hrole. simpl.
  rewrite !exec_calm by done. simpl. rewrite Hrec. simpl.
  destruct (fault (e 1%nat)) as [msg|] eqn:H1;
    [by rewrite !(exec_fault _ _ _ msg)|rewrite !exec_calm by done; simpl].
  destruct (find _ (tbl_meals d)) as [meal|]; [|done].
  destruct (Qle_bool (meals.portions_available meal) 0); [done|]. simpl.
  destruct (fault (e 2%nat)) as [msg|] eqn:H2;
    [by rewrite !(exec_fault _ _ _ msg)|rewrite !exec_calm by done; simpl].
  destruct (fault (e 3%nat)) as [msg|] eqn:H3;
    [by rewrite !(exec_fault _ _ _ msg)|by rewrite !exec_calm].
Qed.

(** C5. A user-role request fails the cooldown check with CooldownActive
    exactly when the user has a reservation made less than three days before
    the time of the check. The bound is exclusive: when every reservation of
    the user is three days old or older, the request is not answered
    CooldownActive and goes on to the meal lookup. *)
Theorem cooldown_window (req : request) (userId : Z) (email : string)
    (e : nat -> env) (d : database) :
  let user := claims.mk userId email "user" in
  fault (e 0%nat) = None ->
  (fst (run (reserve req user) e d) = CooldownActive <->
   exists r, r ∈ tbl_reservations d /\ reservations.user_id r = userId /\
             now (e 0%nat) - reservations.created_at r < three_days) /\
  ((forall r, r ∈ tbl_reservations d -> reservations.user_id r = userId ->
              three_days <= now (e 0%nat) - reservations.created_at r) ->
   fst (run (reserve req user) e d) <> CooldownActive /\
   trace (reserve req user) e d !! 1%nat = Some (Issued (mealSql (params_id req)))).
Proof.
  intros user H0. split; [split|].
  - intros Hresp.
    destruct (select_recent (now (e 0%nat)) userId d) as [r|] eqn:Hrec.
    + apply select_recent_Some in Hrec as [Hin [Hu Ht]].
      exists r. repeat split; [done..|lia].
    + by destruct (reserve_not_cooldown req user e d eq_refl H0 Hrec).
  - intros (r & Hin & Hu & Ht).
    destruct (select_recent (now (e 0%nat)) userId d) as [r'|] eqn:Hrec.
    + by destruct (reserve_cooldown req user e d r' eq_refl H0 Hrec) as [-> _].
    + exfalso. apply (proj1 (select_recent_None _ _ _) Hrec r Hin).
      split; [done|lia].
  - intros Hold. apply (reserve_not_cooldown req user e d eq_refl H0).
    apply select_recent_None. intros r Hin [Hu Ht].
    specialize (Hold r Hin Hu). lia.
Qed.

Lemma cooldown_window_witness :
  (* one hour after Bo's reservation *)
  fst (run (reserve (bearer_of "bo" 1) bo) (calm 3700) sold_out) = CooldownActive /\
  (* exactly three days after it *)
  fst (run (reserve (bearer_of "bo" 1) bo) (calm (100 + three_days)) sold_out)
    <> CooldownActive.
Proof.
  split.
  - apply (proj1 (cooldown_window (bearer_of "bo" 1) 2 "bo@example.org"
                    (calm 3700) sold_out eq_refl)).
    exists (reservations.mk 1 2 1 100). split; [left|]. split; [reflexivity|].
    vm_compute. reflexivity.
  - apply (proj2 (cooldown_window (bearer_of "bo" 1) 2 "bo@example.org"
                    (calm (100 + three_days)) sold_out eq_refl)).
    intros r Hin Hu. apply list_elem_of_singleton in Hin. subst r.
    vm_compute. discriminate.
Defined.

(** ** Role authorization and the presence check of POST /meals *)

Section Authorization.
Variable JWT_SECRET : string.
Variable jwt_verify : string -> string -> Z -> option claims.t.

Lemma authenticateToken_passes t req user next :
  authenticated JWT_SECRET jwt_verify t req user ->
  authenticateToken JWT_SECRET jwt_verify t req next = next user.
Proof.
  intros (token & Hb & Ht & Hv). unfold authenticateToken.
  rewrite Hb. unfold falsy. rewrite Ht. simpl. by rewrite Hv.
Qed.

Lemma create_meal_forbidden req user :
  claims.role user <> "merchant" -> create_meal req user = Respond MerchantsOnly.
Proof.
  intros Hrole. unfold create_meal.
  destruct (String.eqb_spec (claims.role user) "merchant"); done.
Qed.

(** C6. On both protected routes the role is checked before anything else:
    an authenticated requester whose role is not [merchant] gets 403 from
    POST /meals, and one whose role is not [user] gets 403 from
    POST /meals/:id/reserve; in both cases no statement is issued, so no meal
    or reservation is created and no meal changes. *)
Theorem role_authorization (t : Z) (req : request) (user : claims.t)
    (e : nat -> env) (d : database) :
  authenticated JWT_SECRET jwt_verify t req user ->
  (claims.role user <> "merchant" ->
     run (post_meals JWT_SECRET jwt_verify t req) e d = (MerchantsOnly, d) /\
     status MerchantsOnly = 403 /\
     trace (post_meals JWT_SECRET jwt_verify t req) e d = []) /\
  (claims.role user <> "user" ->
     run (post_meals_reserve JWT_SECRET jwt_verify t req) e d = (Forbidden, d) /\
     status Forbidden = 403 /\
     trace (post_meals_reserve JWT_SECRET jwt_verify t req) e d = []).
Proof.
  intros Hauth. split; intros Hrole.
  - unfold post_meals. rewrite (authenticateToken_passes _ _ user) by done.
    by rewrite create_meal_forbidden.
  - unfold post_meals_reserve. rewrite (authenticateToken_passes _ _ user) by done.
    by rewrite reserve_forbidden.
Qed.

(** C10. For a merchant, POST /meals with [portions_available] equal to 0
    answers 400 as a missing field, whatever the other fields, and stores
    nothing; with a negative [portions_available] (and title and pickup time
    present) the presence check passes and the meal is stored with that
    negative value, integer or not. *)
Theorem create_meal_presence_check (t : Z) (req : request) (user : claims.t)
    (e : nat -> env) (d : database) :
  authenticated JWT_SECRET jwt_verify t req user ->
  claims.role user = "merchant" ->
  (forall p, body.portions_available (req_body req) = Some p -> (p == 0)%Q ->
     run (post_meals JWT_SECRET jwt_verify t req) e d = (MealFieldsRequired, d) /\
     trace (post_meals JWT_SECRET jwt_verify t req) e d = []) /\
  (forall title pickup_time p,
     body.title (req_body req) = Some title -> title <> "" ->
     body.pickup_time (req_body req) = Some pickup_time -> pickup_time <> "" ->
     body.portions_available (req_body req) = Some p -> (p < 0)%Q ->
     fault (e 0%nat) = None ->
     let i := next_rowid (map meals.id (tbl_meals d)) in
     let description := or_default (body.description (req_body req)) "" in
     run (post_meals JWT_SECRET jwt_verify t req) e d =
       (res 201 (meal_json i (claims.id user) title description p pickup_time
                           (now (e 0%nat))),
        mkdb (tbl_users d)
             (tbl_meals d ++ [meals.mk i (claims.id user) title description p
                                       pickup_time (now (e 0%nat))])
             (tbl_reservations d) i)).
Proof.
  intros Hauth Hrole.
  unfold post_meals. rewrite (authenticateToken_passes _ _ user) by done.
  unfold create_meal. rewrite Hrole. simpl. split.
  - intros p Hp Hzero. rewrite Hp.
    destruct (body.title (req_body req)) as [title|]; [|done].
    destruct (body.pickup_time (req_body req)) as [pickup|]; [|done].
    assert (Hf : falsy title || falsy p || falsy pickup = true)
      by (rewrite (zero_is_falsy p Hzero); by rewrite orb_true_r).
    by rewrite Hf.
  - intros title pickup p Ht Htne Hpk Hpkne Hp Hneg H0.
    rewrite Ht, Hpk, Hp.
    rewrite (nonzero_is_truthy p) by lra.
    unfold falsy, truthy, truthy_string.
    destruct (String.eqb_spec title ""); [done|].
    destruct (String.eqb_spec pickup ""); [done|]. simpl.
    rewrite exec_calm by done. reflexivity.
Qed.

End Authorization.

Lemma role_authorization_witness :
  (* Bo, a user, publishing a meal *)
  run (post_meals "secret" sample_verify 200
         (mkreq (Some "Bearer bo") 0 (meal_body 4))) (calm 200) one_portion
    = (MerchantsOnly, one_portion) /\
  (* Ana, a merchant, reserving *)
  run (post_meals_reserve "secret" sample_verify 200 (bearer_of "ana" 1))
      (calm 200) one_portion
    = (Forbidden, one_portion).
Proof.
  split.
  - refine (proj1 (proj1 (role_authorization "secret" sample_verify 200
              (mkreq (Some "Bearer bo") 0 (meal_body 4)) bo (calm 200) one_portion
              _) _)).
    + exists "bo". repeat split; reflexivity.
    + discriminate.
  - refine (proj1 (proj2 (role_authorization "secret" sample_verify 200
              (bearer_of "ana" 1) ana (calm 200) one_portion _) _)).
    + exists "ana". repeat split; reflexivity.
    + discriminate.
Defined.

Lemma create_meal_presence_check_witness :
  run (post_meals "secret" sample_verify 200
         (mkreq (Some "Bearer ana") 0 (meal_body 0))) (calm 200) one_portion
    = (MealFieldsRequired, one_portion) /\
  run (post_meals "secret" sample_verify 200
         (mkreq (Some "Bearer ana") 0 (meal_body (-5)))) (calm 200) one_portion
    = (res 201 (meal_json 2 1 "Stew" "" (-5) "2024-05-03 12:00:00" 200),
       mkdb (tbl_users one_portion)
            (tbl_meals one_portion ++
               [meals.mk 2 1 "Stew" "" (-5) "2024-05-03 12:00:00" 200])
            [] 2).
Proof.
  split.
  - refine (proj1 (proj1 (create_meal_presence_check "secret" sample_verify 200
              (mkreq (Some "Bearer ana") 0 (meal_body 0)) ana (calm 200)
              one_portion _ eq_refl) 0%Q eq_refl _)).
    + exists "ana". repeat split; reflexivity.
    + reflexivity.
  - refine (proj2 (create_meal_presence_check "secret" sample_verify 200
              (mkreq (Some "Bearer ana") 0 (meal_body (-5))) ana (calm 200)
              one_portion _ eq_refl)
              "Stew" "2024-05-03 12:00:00" (-5)%Q eq_refl _ eq_refl _ eq_refl _ eq_refl).
    + exists "ana". repeat split; reflexivity.
    + discriminate.
    + discriminate.
    + reflexivity.
Defined.

(** ** Requests in flight together, and storage faults *)

(** C1 (fails on the code). One meal with one portion, two distinct eligible
    users. When their statements alternate, both read one portion left, both
    are answered 201, two reservations are stored and the meal ends at -1.
    Served one after the other, the first gets 201 and the second SoldOut. *)
Theorem oversell_when_interleaved :
  find_meal 1 one_portion = Some (meals.mk 1 1 "Soup" "" 1 "2024-05-02 18:00:00" 10) /\
  (exists d',
     interleave alternating race_pool one_portion =
       ([Respond (Reserved 2 2 1); Respond (Reserved 2 3 1)], d') /\
     meals.portions_available <$> find_meal 1 d' = Some (-1)%Q /\
     length (tbl_reservations d') = 2%nat) /\
  (exists d',
     interleave one_after_another race_pool one_portion =
       ([Respond (Reserved 1 2 1); Respond SoldOut], d') /\
     meals.portions_available <$> find_meal 1 d' = Some 0%Q /\
     length (tbl_reservations d') = 1%nat).
Proof.
  split; [reflexivity|].
  split; eexists; (split; [vm_compute; reflexivity|]); split; reflexivity.
Qed.

(** A request admitted to the commit whose decrement fails: answered 500,
    the reservation row is in, the meals are as they were. *)
Lemma reserve_update_fault req user e d meal msg :
  claims.role user = "user" -> fault (e 0%nat) = None ->
  select_recent (now (e 0%nat)) (claims.id user) d = None ->
  fault (e 1%nat) = None ->
  find_meal (params_id req) d = Some meal ->
  (0 < meals.portions_available meal)%Q ->
  fault (e 2%nat) = None -> fault (e 3%nat) = Some msg ->
  let d' := snd (run (reserve req user) e d) in
  fst (run (reserve req user) e d) = DatabaseError /\
  tbl_meals d' = tbl_meals d /\
  tbl_reservations d' =
    (tbl_reservations d ++
       [reservations.mk (next_rowid (map reservations.id (tbl_reservations d)))
                        (claims.id user) (params_id req) (now (e 2%nat))])%list.
Proof.
  intros Hrole H0 Hrec H1 Hfind Hpos H2 H3. unfold reserve. rewrite Hrole. simpl.
  rewrite exec_calm by done. simpl. rewrite Hrec. simpl.
  rewrite exec_calm by done. simpl. unfold find_meal in Hfind. rewrite Hfind.
  rewrite portion_left by done. simpl.
  rewrite exec_calm by done. simpl.
  rewrite (exec_fault _ _ _ msg) by done. done.
Qed.

(** C3 (fails on the code). The two writes of a reservation are separate
    statements: when the decrement fails after the insert went through, the
    request is answered 500, the reservation row stays and the meal keeps its
    portion. *)
Theorem commit_not_all_or_nothing :
  let d' := snd (run (reserve (bearer_of "bo" 1) bo) (failing_at 3 200) one_portion) in
  fst (run (reserve (bearer_of "bo" 1) bo) (failing_at 3 200) one_portion)
    = DatabaseError /\
  tbl_reservations one_portion = [] /\
  tbl_reservations d' = [reservations.mk 1 2 1 200] /\
  tbl_meals d' = tbl_meals one_portion.
Proof. vm_compute. repeat split; reflexivity. Qed.

(** ** Portions never go negative, one request at a time *)

Lemma next_rowid_fresh (ids : list Z) x : x ∈ ids -> x < next_rowid ids.
Proof.
  unfold next_rowid. induction 1 as [x l|x y l _ IH]; simpl; lia.
Qed.

Lemma find_meal_unique (l : list meals.row) k m m' :
  NoDup (map meals.id l) ->
  find (fun r => Z.eqb (meals.id r) k) l = Some m ->
  m' ∈ l -> meals.id m' = k -> m' = m.
Proof.
  induction l as [|r l IH]; simpl; [done|].
  intros Hnd Hfind Hin Hid. apply NoDup_cons in Hnd as [Hr Hnd].
  destruct (Z.eqb_spec (meals.id r) k) as [Hk|Hk].
  - injection Hfind as <-. apply elem_of_cons in Hin as [->|Hin]; [done|].
    exfalso. apply Hr. apply list_elem_of_In, in_map_iff.
    exists m'. split; [congruence|by apply list_elem_of_In].
  - apply elem_of_cons in Hin as [->|Hin]; [done|]. by apply IH.
Qed.

Lemma decrement_ids k (l : list meals.row) :
  map meals.id (map (decrement k) l) = map meals.id l.
Proof.
  induction l as [|r l IH]; simpl; [done|]. rewrite IH. f_equal.
  unfold decrement. by destruct (meals.id r =? k).
Qed.

(** An integer above 0 is at least 1. *)
Lemma whole_step (q : Q) :
  whole q -> (0 < q)%Q -> (0 <= q - 1)%Q /\ whole (q - 1)%Q.
Proof.
  intros [z Hz] Hq. rewrite Hz in Hq.
  assert (Hz1 : (1 <= z)%Z).
  { change 0%Q with (inject_Z 0) in Hq. rewrite <- Zlt_Qlt in Hq. lia. }
  assert (Hpred : (q - 1 == inject_Z (z - 1))%Q).
  { rewrite Hz. unfold Z.sub. rewrite inject_Z_plus, inject_Z_opp. reflexivity. }
  split.
  - rewrite Hpred. change 0%Q with (inject_Z 0). rewrite <- Zle_Qle. lia.
  - by exists (z - 1)%Z.
Qed.

Lemma decrement_keeps_nonneg k (d : database) m :
  NoDup (map meals.id (tbl_meals d)) -> portions_nonneg d -> portions_whole d ->
  find_meal k d = Some m -> (0 < meals.portions_available m)%Q ->
  Forall (fun r => (0 <= meals.portions_available r)%Q)
         (map (decrement k) (tbl_meals d)) /\
  Forall (fun r => whole (meals.portions_available r))
         (map (decrement k) (tbl_meals d)).
Proof.
  intros Hnd Hpos Hwhole Hfind Hm.
  unfold portions_nonneg, portions_whole in *.
  rewrite Forall_forall in Hpos, Hwhole.
  assert (Hboth : forall r, r ∈ tbl_meals d ->
            (0 <= meals.portions_available (decrement k r))%Q /\
            whole (meals.portions_available (decrement k r))).
  { intros r Hin. unfold decrement.
    destruct (Z.eqb_spec (meals.id r) k) as [Hk|Hk]; [|by split; auto].
    rewrite (find_meal_unique _ _ _ _ Hnd Hfind Hin Hk). simpl.
    apply whole_step; [|done]. apply Hwhole.
    by rewrite <- (find_meal_unique _ _ _ _ Hnd Hfind Hin Hk). }
  split; apply Forall_forall; intros r' Hin;
    apply list_elem_of_In, in_map_iff in Hin as (r & <- & Hin);
    apply list_elem_of_In in Hin; by apply Hboth.
Qed.

(** Walk down a callback chain, one case split per test or statement. *)
Ltac walk :=
  repeat (simpl in *; first [ progress unfold exec in * | case_match ]);
  simpl in *; simplify_eq.

Lemma reserve_meals_effect req user e d :
  let d' := snd (run (reserve req user) e d) in
  tbl_meals d' = tbl_meals d \/
  exists meal, find_meal (params_id req) d = Some meal /\
               (0 < meals.portions_available meal)%Q /\
               tbl_meals d' = map (decrement (params_id req)) (tbl_meals d).
Proof.
  unfold reserve, find_meal.
  walk; try (by left).
  right. eexists. split; [eassumption|].
  split; [by apply portion_test_false|reflexivity].
Qed.

Lemma create_meal_effect req user e d :
  let d' := snd (run (create_meal req user) e d) in
  tbl_meals d' = tbl_meals d \/
  exists row p, body.portions_available (req_body req) = Some p /\
                meals.portions_available row = p /\
                meals.id row = next_rowid (map meals.id (tbl_meals d)) /\
                tbl_meals d' = (tbl_meals d ++ [row])%list.
Proof.
  unfold create_meal.
  walk; try (by left).
  right. eexists (meals.mk _ _ _ _ _ _ _), _. repeat split; reflexivity.
Qed.

Section Invariant.
Variable JWT_SECRET : string.
Variable jwt_sign : claims.t -> string -> string -> Z -> string.
Variable jwt_verify : string -> string -> Z -> option claims.t.
Variable bcrypt_hash : string -> Z -> string -> outcome string.
Variable bcrypt_compare : string -> string -> outcome bool.

Local Abbreviation serve :=
  (serve JWT_SECRET jwt_sign jwt_verify bcrypt_hash bcrypt_compare).

Lemma authenticateToken_cases t req next :
  (exists r, authenticateToken JWT_SECRET jwt_verify t req next = Respond r) \/
  (exists user, authenticated JWT_SECRET jwt_verify t req user /\
                authenticateToken JWT_SECRET jwt_verify t req next = next user).
Proof.
  unfold authenticateToken, authenticated.
  destruct (bearer (authorization req)) as [token|] eqn:Hb; [|left; eauto].
  unfold falsy. destruct (truthy token) eqn:Ht; simpl; [|left; eauto].
  destruct (jwt_verify token JWT_SECRET t) as [user|] eqn:Hv; [|left; eauto].
  right. exists user. split; [|done]. exists token. done.
Qed.

Lemma other_routes_keep_meals o e d :
  match o with
  | op_register _ _ | op_login _ | op_listMeals _ =>
      tbl_meals (snd (run (serve o) e d)) = tbl_meals d
  | _ => True
  end.
Proof.
  destruct o; try done; simpl.
  - unfold post_register. walk; done.
  - unfold post_login. walk; done.
  - unfold get_meals. walk; done.
Qed.

Lemma append_keeps_invariant (d : database) (row : meals.row) :
  NoDup (map meals.id (tbl_meals d)) -> portions_nonneg d -> portions_whole d ->
  meals.id row = next_rowid (map meals.id (tbl_meals d)) ->
  (0 <= meals.portions_available row)%Q -> whole (meals.portions_available row) ->
  Forall (fun r => (0 <= meals.portions_available r)%Q) (tbl_meals d ++ [row]) /\
  Forall (fun r => whole (meals.portions_available r)) (tbl_meals d ++ [row]) /\
  NoDup (map meals.id (tbl_meals d ++ [row])).
Proof.
  intros Hnd Hpos Hwhole Hid Hrow Hrowwhole. split; [|split].
  - apply Forall_app. split; [done|]. by apply Forall_singleton.
  - apply Forall_app. split; [done|]. by apply Forall_singleton.
  - rewrite map_app. simpl. apply NoDup_app. split; [done|]. split.
    + intros x Hx Hin. apply list_elem_of_singleton in Hin. subst x.
      apply next_rowid_fresh in Hx. lia.
    + apply NoDup_singleton.
Qed.

(** C2 (as amended). From a state with distinct meal keys in which every
    meal's portions are an integer that is not negative, every operation
    served on its own leaves every meal's portions an integer that is not
    negative, provided a createMeal carries a [portions_available] that is an
    integer and not negative: register, login and listMeals leave the meals
    table as it is; a reservation either leaves it as it is or decrements the
    meal it names, whose portions were strictly positive. *)
Theorem portions_stay_nonneg (o : operation) (e : nat -> env) (d : database) :
  NoDup (map meals.id (tbl_meals d)) ->
  portions_nonneg d ->
  portions_whole d ->
  (forall t req p, o = op_createMeal t req ->
                   body.portions_available (req_body req) = Some p ->
                   (0 <= p)%Q /\ whole p) ->
  let d' := snd (run (serve o) e d) in
  portions_nonneg d' /\
  portions_whole d' /\
  NoDup (map meals.id (tbl_meals d')) /\
  match o with
  | op_reserve t req =>
      tbl_meals d' = tbl_meals d \/
      exists meal, find_meal (params_id req) d = Some meal /\
                   (0 < meals.portions_available meal)%Q /\
                   tbl_meals d' = map (decrement (params_id req)) (tbl_meals d)
  | op_createMeal t req => True
  | _ => tbl_meals d' = tbl_meals d
  end.
Proof.
  intros Hnd Hpos Hwhole Hcreate d'. subst d'. unfold portions_nonneg, portions_whole.
  destruct o as [salt req|req|t req|req|t req].
  - pose proof (other_routes_keep_meals (op_register salt req) e d) as Hk.
    simpl in Hk |- *. by rewrite Hk.
  - pose proof (other_routes_keep_meals (op_login req) e d) as Hk.
    simpl in Hk |- *. by rewrite Hk.
  - simpl. unfold post_meals.
    destruct (authenticateToken_cases t req (create_meal req))
      as [[r ->]|(user & _ & ->)]; [done|].
    destruct (create_meal_effect req user e d) as [->|(row & p & Hp & Hrow & Hid & ->)];
      [done|].
    destruct (Hcreate t req p eq_refl Hp) as [Hp0 Hpw]. rewrite <- Hrow in Hp0, Hpw.
    by destruct (append_keeps_invariant d row Hnd Hpos Hwhole Hid Hp0 Hpw)
      as (? & ? & ?).
  - pose proof (other_routes_keep_meals (op_listMeals req) e d) as Hk.
    simpl in Hk |- *. by rewrite Hk.
  - simpl. unfold post_meals_reserve.
    destruct (authenticateToken_cases t req (reserve req))
      as [[r ->]|(user & _ & ->)]; [simpl; auto|].
    destruct (reserve_meals_effect req user e d) as [Hm|(meal & Hf & Hpm & Hm)].
    + rewrite Hm. auto.
    + rewrite Hm.
      destruct (decrement_keeps_nonneg _ d meal Hnd Hpos Hwhole Hf Hpm) as [? ?].
      split; [done|]. split; [done|].
      split; [by rewrite decrement_ids|]. right. eauto.
Qed.

End Invariant.

(** C2 (as stated) fails, in two ways. The empty store has no meal with
    negative portions; after a merchant's POST /meals with
    [portions_available] = -5 it has one. And a store whose only meal has half
    a portion has no meal with negative portions; after one reservation
    served on its own, which finds the portions strictly positive, the meal
    is at minus one half. *)
Lemma create_meal_stores_negative_portions :
  (portions_nonneg empty_db /\
   ~ portions_nonneg
       (snd (run (serve "secret" sample_sign sample_verify sample_hash sample_compare
                    (op_createMeal 200 (mkreq (Some "Bearer ana") 0 (meal_body (-5)))))
                 (calm 200) empty_db))) /\
  (portions_nonneg half_portion /\
   ~ portions_nonneg
       (snd (run (serve "secret" sample_sign sample_verify sample_hash sample_compare
                    (op_reserve 200 (bearer_of "bo" 1)))
                 (calm 200) half_portion))).
Proof.
  split; split.
  - constructor.
  - vm_compute. intros H. apply Forall_inv in H. by apply H.
  - repeat constructor. simpl. lra.
  - vm_compute. intros H. apply Forall_inv in H. by apply H.
Qed.

Lemma portions_stay_nonneg_witness :
  portions_nonneg
    (snd (run (serve "secret" sample_sign sample_verify sample_hash sample_compare
                 (op_reserve 200 (bearer_of "bo" 1)))
              (calm 200) one_portion)).
Proof.
  refine (proj1 (portions_stay_nonneg "secret" sample_sign sample_verify
                   sample_hash sample_compare
                   (op_reserve 200 (bearer_of "bo" 1)) (calm 200) one_portion
                   _ _ _ _)).
  - simpl. apply NoDup_singleton.
  - repeat constructor. simpl. lra.
  - repeat constructor. exists 1%Z. reflexivity.
  - discriminate.
Defined.

(** ** GET /meals *)

Lemma listing_order_trans : Transitive listing_order.
Proof. intros a b c. unfold listing_order, newer_first. lia. Qed.

Lemma listing_order_total : Total listing_order.
Proof. intros a b. unfold listing_order, newer_first. lia. Qed.

Lemma join_merchant_spec us m row :
  row ∈ join_merchant us m <->
  exists u, u ∈ us /\ meals.merchant_id m = users.id u /\
            row = listing.mk m (users.name u).
Proof.
  unfold join_merchant. rewrite list_elem_of_In, in_map_iff. split.
  - intros (u & <- & Hin). apply list_elem_of_In, list_elem_of_filter in Hin.
    exists u. tauto.
  - intros (u & Hin & Hid & ->). exists u. split; [done|].
    apply list_elem_of_In, list_elem_of_filter. done.
Qed.

Lemma filter_key_absent (us : list users.row) k :
  k ∉ map users.id us -> filter (fun u => k = users.id u) us = [].
Proof.
  induction us as [|u us IH]; simpl; [done|]. intros Hk.
  rewrite filter_cons. apply not_elem_of_cons in Hk as [Hne Hk].
  destruct (decide (k = users.id u)); [done|]. by apply IH.
Qed.

Lemma join_merchant_unique us m :
  NoDup (map users.id us) ->
  (exists u, u ∈ us /\ users.id u = meals.merchant_id m) ->
  map listing.meal (join_merchant us m) = [m].
Proof.
  unfold join_merchant. induction us as [|u us IH]; simpl.
  - intros _ (u & Hin & _). by apply elem_of_nil in Hin.
  - intros Hnd (u' & Hin & Hid). apply NoDup_cons in Hnd as [Hu Hnd].
    rewrite filter_cons.
    destruct (decide (meals.merchant_id m = users.id u)) as [Heq|Hne].
    + rewrite filter_key_absent by congruence. done.
    + apply elem_of_cons in Hin as [->|Hin]; [congruence|]. apply IH; eauto.
Qed.

Lemma joined_meals us ms :
  NoDup (map users.id us) ->
  (forall m, m ∈ ms -> exists u, u ∈ us /\ users.id u = meals.merchant_id m) ->
  map listing.meal (flat_map (join_merchant us) ms) = ms.
Proof.
  intros Hnd. induction ms as [|m ms IH]; simpl; [done|]. intros Hall.
  rewrite map_app, join_merchant_unique; [|done|apply Hall; left].
  simpl. f_equal. apply IH. intros m' Hin. apply Hall. by right.
Qed.

Lemma joined_meals_with_merchant (d : database) (ms : list meals.row) :
  NoDup (map users.id (tbl_users d)) ->
  map listing.meal (flat_map (join_merchant (tbl_users d)) ms) =
  filter (has_merchant d) ms.
Proof.
  intros Hnd. induction ms as [|m ms IH]; simpl; [done|].
  rewrite map_app, IH.
  destruct (decide (has_merchant d m)) as [Hm|Hm].
  - rewrite filter_cons_True by done.
    rewrite join_merchant_unique; [done|done|].
    unfold has_merchant in Hm.
    apply list_elem_of_In, in_map_iff in Hm as (u & Hid & Hu).
    exists u. split; [by apply list_elem_of_In|done].
  - rewrite filter_cons_False by done.
    unfold join_merchant. by rewrite filter_key_absent.
Qed.

(** C8 (as amended). GET /meals answers 200 with the meals joined with their
    merchant: every row is a meal together with the name of the user its
    [merchant_id] names, and the rows are ordered by [created_at], newest
    first. A meal whose [merchant_id] names no user is left out; with user
    keys distinct, the meals listed are exactly those whose [merchant_id]
    names a user, each once, so that every meal is listed exactly once when
    every meal's merchant is a user. The route has no middleware and does not
    look at the request, so it answers the same without an [Authorization]
    header. *)
Theorem list_meals_newest_first (req : request) (e : nat -> env) (d : database) :
  fault (e 0%nat) = None ->
  let rows := select_listing d in
  run (get_meals req) e d = (res 200 (rows_json rows), d) /\
  get_meals req = get_meals (mkreq None 0 body.empty) /\
  StronglySorted
    (fun a b => meals.created_at (listing.meal b) <= meals.created_at (listing.meal a))
    rows /\
  (forall row, row ∈ rows <->
     exists m u, m ∈ tbl_meals d /\ u ∈ tbl_users d /\
                 meals.merchant_id m = users.id u /\
                 row = listing.mk m (users.name u)) /\
  (forall row, row ∈ rows -> has_merchant d (listing.meal row)) /\
  (NoDup (map users.id (tbl_users d)) ->
   map listing.meal rows ≡ₚ filter (has_merchant d) (tbl_meals d)) /\
  (NoDup (map users.id (tbl_users d)) ->
   (forall m, m ∈ tbl_meals d ->
      exists u, u ∈ tbl_users d /\ users.id u = meals.merchant_id m) ->
   map listing.meal rows ≡ₚ tbl_meals d).
Proof.
  intros H0 rows. subst rows. unfold select_listing. repeat split.
  - unfold get_meals. simpl. rewrite exec_calm by done. reflexivity.
  - apply (@StronglySorted_merge_sort _ listing_order _
             listing_order_trans listing_order_total).
  - rewrite merge_sort_Permutation, list_elem_of_In, in_flat_map.
    intros (m & Hm & Hrow). apply list_elem_of_In in Hm, Hrow.
    apply join_merchant_spec in Hrow as (u & Hu & Hid & ->). eauto 10.
  - rewrite merge_sort_Permutation, list_elem_of_In, in_flat_map.
    intros (m & u & Hm & Hu & Hid & ->). exists m.
    split; [by apply list_elem_of_In|].
    apply list_elem_of_In, join_merchant_spec. eauto.
  - intros row. rewrite merge_sort_Permutation, list_elem_of_In, in_flat_map.
    intros (m & Hm & Hrow). apply list_elem_of_In in Hrow.
    apply join_merchant_spec in Hrow as (u & Hu & Hid & ->). simpl.
    unfold has_merchant. rewrite Hid.
    apply list_elem_of_In, in_map, list_elem_of_In, Hu.
  - intros Hnd. rewrite <- (joined_meals_with_merchant d (tbl_meals d) Hnd).
    apply Permutation_map, merge_sort_Permutation.
  - intros Hnd Href.
    rewrite <- (joined_meals (tbl_users d) (tbl_meals d) Hnd Href) at 2.
    apply Permutation_map, merge_sort_Permutation.
Qed.

Lemma list_meals_newest_first_witness :
  run (get_meals (mkreq None 0 body.empty)) (calm 200) two_meals =
    (res 200 (rows_json
       [listing.mk (meals.mk 2 1 "Stew" "" 3 "2024-05-03 12:00:00" 20) "Ana";
        listing.mk (meals.mk 1 1 "Soup" "" 1 "2024-05-02 18:00:00" 10) "Ana"]),
     two_meals).
Proof.
  apply (proj1 (list_meals_newest_first (mkreq None 0 body.empty) (calm 200)
                  two_meals eq_refl)).
Defined.

(** C8 (as stated) fails: in a store where a merchant published a meal with
    a token whose key names no stored user, the meals table holds the meal
    and GET /meals answers 200 with no row. *)
Lemma stored_meal_is_not_listed :
  tbl_meals stale_token_store =
    [meals.mk 1 1 "Stew" "" 3 "2024-05-03 12:00:00" 200] /\
  run (get_meals (mkreq None 0 body.empty)) (calm 300) stale_token_store =
    (res 200 (rows_json []), stale_token_store).
Proof. split; reflexivity. Qed.

(** ** Passwords *)

Lemma find_rehash f email (us : list users.row) :
  find (fun u => String.eqb (users.email u) email) (map (rehash_row f) us) =
  option_map (rehash_row f) (find (fun u => String.eqb (users.email u) email) us).
Proof.
  induction us as [|u us IH]; simpl; [done|].
  by destruct (String.eqb (users.email u) email).
Qed.

Section Passwords.
Variable JWT_SECRET : string.
Variable jwt_sign : claims.t -> string -> string -> Z -> string.
Variable bcrypt_hash : string -> Z -> string -> outcome string.
Variable bcrypt_compare : string -> string -> outcome bool.

Local Abbreviation login := (post_login JWT_SECRET jwt_sign).

Lemma login_answer cmp email password user e d :
  find_user email d = Some user ->
  email <> "" -> password <> "" -> fault (e 0%nat) = None ->
  run (login cmp (login_request email password)) e d =
    (match cmp password (users.password_hash user) with
     | Ok true =>
         res 200 (login_json "Login successful!"
                    (jwt_sign (claims.mk (users.id user) (users.email user)
                                         (users.role user))
                              JWT_SECRET "7d" (now (e 0%nat)))
                    (users.id user) (users.name user) (users.email user)
                    (users.role user))
     | _ => res 400 (error_json "Incorrect password.")
     end, d).
Proof.
  intros Hfind He Hp H0. unfold post_login, login_request. simpl.
  unfold falsy, truthy, truthy_string.
  destruct (String.eqb_spec email ""); [done|].
  destruct (String.eqb_spec password ""); [done|]. simpl.
  rewrite exec_calm by done. simpl. unfold find_user in Hfind. rewrite Hfind.
  by destruct (cmp password (users.password_hash user)) as [[|]|].
Qed.

(** What register stores is what bcrypt returned for a non-empty password. *)
Lemma register_stores_the_hash salt req e d :
  let d' := snd (run (post_register bcrypt_hash salt req) e d) in
  d' = d \/
  exists name email password hash role,
    body.password (req_body req) = Some password /\ password <> "" /\
    bcrypt_hash password 10 salt = Ok hash /\
    tbl_users d' =
      (tbl_users d ++
         [users.mk (next_rowid (map users.id (tbl_users d))) name email hash role
                   (now (e 0%nat))])%list.
Proof.
  unfold post_register. walk; try (by left).
  all: right; eexists _, _, _, _, _; (split; [reflexivity|]).
  all: split; [|split; [eassumption|reflexivity]].
  all: intros ->;
    match goal with
    | H : _ || falsy "" = false |- _ =>
        change (falsy "") with true in H; by rewrite orb_true_r in H
    end.
Qed.

(** C7. For a registered user, login with that user's email and a supplied
    (non-empty) password succeeds exactly when bcrypt's comparison of the
    password with the stored hash reports a match; a request without a
    password is refused before any comparison, so the equivalence holds for
    every password as soon as the empty one does not match the stored hash.
    No answer of login or register depends on the hash: login answers the
    same when every stored hash is replaced (the comparison giving the same
    verdict), and register answers the same whatever string the hash function
    returns. *)
Theorem login_iff_password_matches (email password : string)
    (user : users.row) (e : nat -> env) (d : database) :
  find_user email d = Some user ->
  email <> "" ->
  fault (e 0%nat) = None ->
  (password <> "" ->
   (is_success (fst (run (login bcrypt_compare (login_request email password)) e d))
      = true <->
    bcrypt_compare password (users.password_hash user) = Ok true)) /\
  (password = "" ->
   is_success (fst (run (login bcrypt_compare (login_request email password)) e d))
     = false) /\
  (bcrypt_compare "" (users.password_hash user) <> Ok true ->
   forall pw,
     is_success (fst (run (login bcrypt_compare (login_request email pw)) e d))
       = true <->
     bcrypt_compare pw (users.password_hash user) = Ok true) /\
  (forall (f : string -> string) (compare' : string -> string -> outcome bool),
     compare' password (f (users.password_hash user)) =
       bcrypt_compare password (users.password_hash user) ->
     fst (run (login compare' (login_request email password)) e (rehash f d)) =
     fst (run (login bcrypt_compare (login_request email password)) e d)) /\
  (forall (salt : string) (req : request)
          (hash' : string -> Z -> string -> outcome string),
     (forall pw, (exists h, bcrypt_hash pw 10 salt = Ok h) <->
                 (exists h, hash' pw 10 salt = Ok h)) ->
     fst (run (post_register hash' salt req) e d) =
     fst (run (post_register bcrypt_hash salt req) e d)).
Proof.
  intros Hfind He H0. repeat split.
  - intros Hok. rewrite (login_answer _ _ _ user) in Hok by done.
    by destruct (bcrypt_compare password (users.password_hash user)) as [[|]|].
  - intros Hcmp. rewrite (login_answer _ _ _ user) by done. by rewrite Hcmp.
  - intros ->. unfold post_login, login_request. simpl.
    by rewrite orb_true_r.
  - destruct (String.eqb_spec pw "") as [->|Hp].
    + unfold post_login, login_request. simpl. by rewrite orb_true_r.
    + intros Hok. rewrite (login_answer _ _ _ user) in Hok by done.
      by destruct (bcrypt_compare pw (users.password_hash user)) as [[|]|].
  - destruct (String.eqb_spec pw "") as [->|Hp]; [done|].
    intros Hcmp. rewrite (login_answer _ _ _ user) by done. by rewrite Hcmp.
  - intros f compare' Hsame.
    destruct (String.eqb_spec password "") as [->|Hp].
    { unfold post_login, login_request. simpl. by rewrite orb_true_r. }
    rewrite (login_answer bcrypt_compare email password user e d) by done.
    rewrite (login_answer compare' email password (rehash_row f user) e (rehash f d));
      [simpl; by rewrite Hsame| |done..].
    unfold find_user, rehash in *. simpl. by rewrite find_rehash, Hfind.
  - intros salt req hash' Hsame. unfold post_register.
    destruct (body.name (req_body req)) as [name|]; [|done].
    destruct (body.email (req_body req)) as [em|]; [|done].
    destruct (body.password (req_body req)) as [pw|]; [|done].
    destruct (falsy name || falsy em || falsy pw); [done|].
    specialize (Hsame pw).
    destruct (bcrypt_hash pw 10 salt) as [h|msg] eqn:Hh,
             (hash' pw 10 salt) as [h'|msg'] eqn:Hh'.
    + simpl. unfold exec. destruct (fault (e 0%nat)); [done|]. simpl.
      by destruct (existsb _ _).
    + destruct (proj1 Hsame) as [? ?]; [eauto|done].
    + destruct (proj2 Hsame) as [? ?]; [eauto|done].
    + done.
Qed.

End Passwords.

Lemma login_iff_password_matches_witness :
  is_success (fst (run (post_login "secret" sample_sign sample_compare
                          (login_request "ana@example.org" "soup"))
                       (calm 200) one_portion)) = true.
Proof.
  refine (proj2 (proj1 (login_iff_password_matches "secret" sample_sign
            sample_hash sample_compare "ana@example.org" "soup"
            (users.mk 1 "Ana" "ana@example.org" "salt$soup" "merchant" 0)
            (calm 200) one_portion eq_refl _ eq_refl) _) eq_refl);
    discriminate.
Defined.

(** * Further properties of the routes *)

(** ** The middleware *)

Lemma split_spaceless (s : string) :
  spaceless s = true -> split " " s = [s].
Proof.
  induction s as [|c s IH]; simpl; [done|].
  intros [Hc Hs]%andb_true_iff. apply negb_true_iff in Hc. rewrite Hc.
  by rewrite IH.
Qed.

Lemma split_at_first_space (s rest : string) :
  spaceless s = true ->
  split " " (s ++ String " " rest) = s :: split " " rest.
Proof.
  induction s as [|c s IH]; simpl; [done|].
  intros [Hc Hs]%andb_true_iff. apply negb_true_iff in Hc. rewrite Hc.
  by rewrite IH.
Qed.

Lemma bearer_second_piece (scheme token : string) :
  spaceless scheme = true -> spaceless token = true ->
  bearer (Some (scheme ++ String " " token)) = Some token.
Proof.
  intros Hs Ht. unfold bearer.
  assert (Htruthy : truthy (scheme ++ String " " token) = true)
    by (by destruct scheme).
  rewrite Htruthy, split_at_first_space, split_spaceless by done. done.
Qed.

Lemma bearer_ignores_tail (scheme token tail : string) :
  spaceless scheme = true -> spaceless token = true ->
  bearer (Some (scheme ++ String " " (token ++ String " " tail))) = Some token.
Proof.
  intros Hs Ht. unfold bearer.
  assert (Htruthy :
    truthy (scheme ++ String " " (token ++ String " " tail)) = true)
    by (by destruct scheme).
  rewrite Htruthy, !split_at_first_space by done. done.
Qed.

Section Middleware.
Variable JWT_SECRET : string.
Variable jwt_verify : string -> string -> Z -> option claims.t.

(** X1. The middleware takes the second space-separated piece of the header
    as the token and never looks at the first: any scheme word in front of
    the token, and anything after a further space, gives the same handling as
    [Bearer <token>]. *)
Theorem scheme_word_is_not_checked (scheme token tail : string) (t : Z)
    (req : request) (next : claims.t -> task response) :
  spaceless scheme = true -> spaceless token = true ->
  authenticateToken JWT_SECRET jwt_verify t
    (with_authorization (Some (scheme ++ String " " token)) req) next =
  authenticateToken JWT_SECRET jwt_verify t
    (with_authorization (Some ("Bearer " ++ token)) req) next /\
  authenticateToken JWT_SECRET jwt_verify t
    (with_authorization (Some (scheme ++ String " " (token ++ String " " tail))) req) next =
  authenticateToken JWT_SECRET jwt_verify t
    (with_authorization (Some ("Bearer " ++ token)) req) next.
Proof.
  intros Hs Ht. unfold authenticateToken, with_authorization. simpl authorization.
  rewrite bearer_second_piece, bearer_ignores_tail by done.
  change ("Bearer " ++ token)%string with ("Bearer" ++ String " " token)%string.
  by rewrite bearer_second_piece.
Qed.

(** X2. A request that carries no token that verifies is answered 401 (no
    token: header absent, empty, or without a second piece) or 403 (token
    rejected) by both protected routes, before any statement: the database is
    as it was. *)
Theorem unauthenticated_requests_are_refused (t : Z) (req : request)
    (e : nat -> env) (d : database) :
  (forall user, ~ authenticated JWT_SECRET jwt_verify t req user) ->
  let refusal :=
    match bearer (authorization req) with
    | Some token => if truthy token then InvalidToken else MissingToken
    | None => MissingToken
    end in
  run (post_meals JWT_SECRET jwt_verify t req) e d = (refusal, d) /\
  trace (post_meals JWT_SECRET jwt_verify t req) e d = [] /\
  run (post_meals_reserve JWT_SECRET jwt_verify t req) e d = (refusal, d) /\
  trace (post_meals_reserve JWT_SECRET jwt_verify t req) e d = [].
Proof.
  intros Hno. unfold post_meals, post_meals_reserve, authenticateToken.
  destruct (bearer (authorization req)) as [token|] eqn:Hb; [|done].
  unfold falsy. destruct (truthy token) eqn:Ht; [|done]. simpl.
  destruct (jwt_verify token JWT_SECRET t) as [user|] eqn:Hv; [|done].
  destruct (Hno user). by exists token.
Qed.

End Middleware.

Lemma scheme_word_is_not_checked_witness :
  post_meals_reserve "secret" sample_verify 200
    (mkreq (Some "Basic bo") 1 body.empty) =
  post_meals_reserve "secret" sample_verify 200 (bearer_of "bo" 1).
Proof.
  apply (proj1 (scheme_word_is_not_checked "secret" sample_verify
                  "Basic" "bo" "" 200 (bearer_of "bo" 1)
                  (reserve (bearer_of "bo" 1)) eq_refl eq_refl)).
Defined.

Lemma unauthenticated_requests_are_refused_witness :
  run (post_meals_reserve "secret" sample_verify 200
         (mkreq (Some "Bearer") 1 body.empty)) (calm 200) one_portion =
    (MissingToken, one_portion) /\
  run (post_meals_reserve "secret" sample_verify 200
         (mkreq (Some "Bearer dan") 1 body.empty)) (calm 200) one_portion =
    (InvalidToken, one_portion).
Proof.
  split.
  - refine (proj1 (proj2 (proj2 (unauthenticated_requests_are_refused "secret"
              sample_verify 200 (mkreq (Some "Bearer") 1 body.empty)
              (calm 200) one_portion _)))).
    intros user (token & Hb & Ht & Hv). vm_compute in Hb. discriminate.
  - refine (proj1 (proj2 (proj2 (unauthenticated_requests_are_refused "secret"
              sample_verify 200 (mkreq (Some "Bearer dan") 1 body.empty)
              (calm 200) one_portion _)))).
    intros user (token & Hb & Ht & Hv). vm_compute in Hb.
    injection Hb as <-. vm_compute in Hv. discriminate.
Defined.

(** ** What every statement keeps, under any interleaving *)

Lemma run_invariant {R} (P : database -> Prop) :
  (forall T e (q : stmt T) d, P d -> P (snd (exec e q d))) ->
  forall (t : task R) e d, P d -> P (snd (run t e d)).
Proof.
  intros Hexec t. induction t as [r|T q callback IH]; intros e d Hd; simpl; [done|].
  specialize (Hexec T (e 0%nat) q d Hd).
  destruct (exec (e 0%nat) q d) as [o d1]. by apply IH.
Qed.

Lemma interleave_invariant {R} (P : database -> Prop) :
  (forall T e (q : stmt T) d, P d -> P (snd (exec e q d))) ->
  forall schedule (pool : list (task R)) d,
    P d -> P (snd (interleave schedule pool d)).
Proof.
  intros Hexec schedule.
  induction schedule as [|[i e] rest IH]; intros pool d Hd; simpl; [done|].
  destruct (pool !! i) as [t|]; [|by apply IH].
  destruct t as [r|T q callback]; simpl; [by apply IH|].
  specialize (Hexec T e q d Hd).
  destruct (exec e q d) as [o d1]. by apply IH.
Qed.

Lemma existsb_email_false email (us : list users.row) :
  existsb (fun u => String.eqb (users.email u) email) us = false ->
  email ∉ map users.email us.
Proof.
  induction us as [|u us IH]; simpl; [intros _; apply not_elem_of_nil|].
  intros [Hu Hrest]%orb_false_iff. apply not_elem_of_cons. split; [|by apply IH].
  apply String.eqb_neq in Hu. congruence.
Qed.

Lemma NoDup_snoc_fresh (ids : list Z) :
  NoDup ids -> NoDup (ids ++ [next_rowid ids]).
Proof.
  intros Hnd. apply NoDup_app. split; [done|]. split; [|apply NoDup_singleton].
  intros x Hx Hin. apply list_elem_of_singleton in Hin. subst x.
  apply next_rowid_fresh in Hx. lia.
Qed.

Lemma exec_keeps_constraints {T} e (q : stmt T) d :
  constraints_hold d -> constraints_hold (snd (exec e q d)).
Proof.
  intros (Hu & Hm & Hr & He). unfold exec.
  destruct (fault e); [done|].
  destruct q; simpl; try done.
  - destruct (existsb _ _) eqn:Hex; [done|]. simpl.
    unfold constraints_hold. simpl. rewrite !map_app. simpl.
    repeat split; try done; [by apply NoDup_snoc_fresh|].
    apply NoDup_app. split; [done|]. split; [|apply NoDup_singleton].
    intros x Hx Hin. apply list_elem_of_singleton in Hin. subst x.
    by apply existsb_email_false in Hex.
  - unfold constraints_hold. simpl. rewrite map_app. simpl.
    repeat split; try done. by apply NoDup_snoc_fresh.
  - unfold constraints_hold. simpl. rewrite map_app. simpl.
    repeat split; try done. by apply NoDup_snoc_fresh.
  - unfold constraints_hold. simpl. by rewrite decrement_ids.
Qed.

(** X3. The primary keys of the three tables and the uniqueness of user
    emails hold after any number of requests, whatever the handlers and
    however their statements interleave, and whichever statements fail. *)
Theorem constraints_survive_interleaving {R} (schedule : list (nat * env))
    (pool : list (task R)) (e : nat -> env) (t : task R) (d : database) :
  constraints_hold d ->
  constraints_hold (snd (interleave schedule pool d)) /\
  constraints_hold (snd (run t e d)).
Proof.
  intros Hd. split.
  - apply interleave_invariant; [|done]. intros. by apply exec_keeps_constraints.
  - apply run_invariant; [|done]. intros. by apply exec_keeps_constraints.
Qed.

Lemma constraints_survive_interleaving_witness :
  constraints_hold (snd (interleave alternating race_pool one_portion)).
Proof.
  refine (proj1 (constraints_survive_interleaving alternating race_pool
                   (calm 200) (Respond MissingToken) one_portion _)).
  unfold constraints_hold. simpl.
  repeat split; apply (bool_decide_unpack _); vm_compute; exact I.
Defined.

Lemma same_meal_refl m : same_meal m m.
Proof. unfold same_meal. repeat split. apply Qle_refl. Qed.

Lemma same_meal_trans m1 m2 m3 :
  same_meal m1 m2 -> same_meal m2 m3 -> same_meal m1 m3.
Proof.
  unfold same_meal. intros (?&?&?&?&?&?&?) (?&?&?&?&?&?&?).
  repeat split; try congruence. lra.
Qed.

Lemma same_meal_decrement k m : same_meal m (decrement k m).
Proof.
  unfold decrement. destruct (meals.id m =? k); [|apply same_meal_refl].
  unfold same_meal. simpl. repeat split. lra.
Qed.

Lemma extends_refl d : extends d d.
Proof.
  repeat split.
  - exists []. by rewrite app_nil_r.
  - exists []. by rewrite app_nil_r.
  - exists (tbl_meals d), []. rewrite app_nil_r. split; [done|].
    apply Forall_Forall2_diag, Forall_forall. intros. apply same_meal_refl.
Qed.

Lemma extends_trans d1 d2 d3 : extends d1 d2 -> extends d2 d3 -> extends d1 d3.
Proof.
  intros ([u1 Hu1] & [r1 Hr1] & (o1 & n1 & Hm1 & Hf1))
         ([u2 Hu2] & [r2 Hr2] & (o2 & n2 & Hm2 & Hf2)).
  repeat split.
  - exists (u1 ++ u2)%list. by rewrite Hu2, Hu1, app_assoc.
  - exists (r1 ++ r2)%list. by rewrite Hr2, Hr1, app_assoc.
  - rewrite Hm1 in Hf2. apply Forall2_app_inv_l in Hf2 as (k1 & k2 & Hk1 & Hk2 & ->).
    exists k1, (k2 ++ n2)%list. split; [by rewrite Hm2, app_assoc|].
    eapply Forall2_trans; [|exact Hf1|exact Hk1]. apply same_meal_trans.
Qed.

Lemma exec_extends {T} e (q : stmt T) d : extends d (snd (exec e q d)).
Proof.
  unfold exec. destruct (fault e); [apply extends_refl|].
  destruct q; simpl; try apply extends_refl.
  - destruct (existsb _ _); [apply extends_refl|]. simpl.
    destruct (extends_refl d) as (_ & Hr & Hm). repeat split; eauto.
  - destruct (extends_refl d) as (Hu & Hr & _). repeat split; eauto.
    simpl. eexists _, _. split; [reflexivity|].
    apply Forall_Forall2_diag, Forall_forall. intros. apply same_meal_refl.
  - destruct (extends_refl d) as (Hu & _ & Hm). repeat split; eauto.
  - destruct (extends_refl d) as (Hu & Hr & _). repeat split; eauto.
    simpl. exists (map (decrement mealId) (tbl_meals d)), [].
    rewrite app_nil_r. split; [done|].
    induction (tbl_meals d); constructor; [apply same_meal_decrement|done].
Qed.

(** X4. Nothing is ever deleted or rewritten: after any requests, however
    interleaved, the users and the reservations are the earlier rows followed
    by new ones, and the meals are the earlier meals, unchanged except that
    their portions may be lower, followed by new ones. No route raises a
    meal's portions. *)
Theorem tables_only_grow {R} (schedule : list (nat * env))
    (pool : list (task R)) (e : nat -> env) (t : task R) (d : database) :
  extends d (snd (interleave schedule pool d)) /\
  extends d (snd (run t e d)).
Proof.
  split.
  - apply (interleave_invariant (extends d)); [|apply extends_refl].
    intros T e0 q d0 Hd0. eapply extends_trans; [exact Hd0|apply exec_extends].
  - apply (run_invariant (extends d)); [|apply extends_refl].
    intros T e0 q d0 Hd0. eapply extends_trans; [exact Hd0|apply exec_extends].
Qed.

(** ** Registration and login *)

Lemma find_user_existsb email d :
  existsb (fun u => String.eqb (users.email u) email) (tbl_users d) =
  bool_decide (is_Some (find_user email d)).
Proof.
  unfold find_user. induction (tbl_users d) as [|u us IH]; simpl; [done|].
  destruct (String.eqb (users.email u) email); simpl; [|done].
  first [done | symmetry; apply bool_decide_eq_true; eauto].
Qed.

Lemma find_snoc {A} (f : A -> bool) (l : list A) (x : A) :
  find f l = None -> find f (l ++ [x]) = if f x then Some x else None.
Proof.
  induction l as [|y l IH]; simpl; [done|]. destruct (f y); [done|apply IH].
Qed.

Lemma truthy_string_ne (s : string) : s <> "" -> falsy s = false.
Proof.
  intros Hs. unfold falsy, truthy, truthy_string.
  by destruct (String.eqb_spec s "").
Qed.

Section Registration.
Variable JWT_SECRET : string.
Variable jwt_sign : claims.t -> string -> string -> Z -> string.
Variable bcrypt_hash : string -> Z -> string -> outcome string.
Variable bcrypt_compare : string -> string -> outcome bool.

Lemma register_answer salt name email password role hash e d :
  name <> "" -> email <> "" -> password <> "" ->
  bcrypt_hash password 10 salt = Ok hash -> fault (e 0%nat) = None ->
  run (post_register bcrypt_hash salt (register_request name email password role)) e d =
    match find_user email d with
    | Some _ => (AlreadyRegistered, d)
    | None =>
        let i := next_rowid (map users.id (tbl_users d)) in
        (res 201 (user_json i name email (stored_role role) (now (e 0%nat))),
         mkdb (tbl_users d ++
                 [users.mk i name email hash (stored_role role) (now (e 0%nat))])
              (tbl_meals d) (tbl_reservations d) i)
    end.
Proof.
  intros Hn He Hp Hh H0. unfold post_register, register_request. simpl.
  rewrite !truthy_string_ne by done. simpl. rewrite Hh. simpl.
  rewrite exec_calm by done. simpl. rewrite find_user_existsb.
  destruct (find_user email d) as [u|] eqn:Hf.
  - rewrite bool_decide_eq_true_2 by eauto. reflexivity.
  - rewrite bool_decide_eq_false_2 by (by intros [? ?]). reflexivity.
Qed.

(** X5. A registration with name, email and password present that bcrypt
    hashes and the store accepts: when the email is not yet registered the
    answer is 201 with the new key, and one user row is appended holding the
    hash (not the password) and the role [merchant] only if the request said
    exactly [merchant], [user] otherwise; when the email is registered the
    answer is 400 and nothing is stored. *)
Theorem register_outcome (salt name email password hash : string)
    (role : option string) (e : nat -> env) (d : database) :
  name <> "" -> email <> "" -> password <> "" ->
  bcrypt_hash password 10 salt = Ok hash -> fault (e 0%nat) = None ->
  let req := register_request name email password role in
  let i := next_rowid (map users.id (tbl_users d)) in
  (find_user email d = None ->
     run (post_register bcrypt_hash salt req) e d =
       (res 201 (user_json i name email (stored_role role) (now (e 0%nat))),
        mkdb (tbl_users d ++
                [users.mk i name email hash (stored_role role) (now (e 0%nat))])
             (tbl_meals d) (tbl_reservations d) i)) /\
  (forall u, find_user email d = Some u ->
     run (post_register bcrypt_hash salt req) e d = (AlreadyRegistered, d)) /\
  (stored_role role = "merchant" <-> role = Some "merchant").
Proof.
  intros Hn He Hp Hh H0 req i. subst req. repeat split.
  - intros Hf. rewrite (register_answer _ _ _ _ _ hash) by done. by rewrite Hf.
  - intros u Hf. rewrite (register_answer _ _ _ _ _ hash) by done. by rewrite Hf.
  - unfold stored_role. destruct role as [r|]; [|done].
    destruct (String.eqb_spec r "merchant"); [by subst|done].
  - intros ->. reflexivity.
Qed.

(** X6. Round trip: once a registration has gone through, login with the
    same email and a password bcrypt accepts against the stored hash answers
    200 with a token signed over the new user's key, email and role; a
    password bcrypt does not accept is answered 400. Login stores nothing. *)
Theorem register_then_login (salt name email password hash attempt : string)
    (role : option string) (e e' : nat -> env) (d : database) :
  name <> "" -> email <> "" -> password <> "" -> attempt <> "" ->
  bcrypt_hash password 10 salt = Ok hash -> fault (e 0%nat) = None ->
  find_user email d = None -> fault (e' 0%nat) = None ->
  let d' := snd (run (post_register bcrypt_hash salt
                        (register_request name email password role)) e d) in
  let i := next_rowid (map users.id (tbl_users d)) in
  let answer :=
    run (post_login JWT_SECRET jwt_sign bcrypt_compare
           (login_request email attempt)) e' d' in
  (bcrypt_compare attempt hash = Ok true ->
     answer =
       (res 200 (login_json "Login successful!"
                   (jwt_sign (claims.mk i email (stored_role role))
                             JWT_SECRET "7d" (now (e' 0%nat)))
                   i name email (stored_role role)), d')) /\
  (bcrypt_compare attempt hash <> Ok true ->
     answer = (res 400 (error_json "Incorrect password."), d')).
Proof.
  intros Hn He Hp Ha Hh H0 Hfresh H0' d' i answer. subst d' answer.
  rewrite (register_answer _ _ _ _ _ hash) by done. rewrite Hfresh. simpl.
  set (row := users.mk i name email hash (stored_role role) (now (e 0%nat))).
  set (d' := mkdb _ _ _ _).
  assert (Hfind : find_user email d' = Some row).
  { unfold find_user, d'. simpl. rewrite find_snoc by exact Hfresh. simpl.
    by rewrite String.eqb_refl. }
  rewrite (login_answer JWT_SECRET jwt_sign bcrypt_compare email attempt row e' d')
    by done.
  simpl. split.
  - intros ->. reflexivity.
  - intros Hno. by destruct (bcrypt_compare attempt hash) as [[|]|].
Qed.

End Registration.

Lemma register_outcome_witness :
  run (post_register sample_hash "salt"
         (register_request "Dee" "dee@example.org" "pw" (Some "admin")))
      (calm 300) one_portion =
    (res 201 (user_json 4 "Dee" "dee@example.org" "user" 300),
     mkdb (tbl_users one_portion ++
             [users.mk 4 "Dee" "dee@example.org" "salt$pw" "user" 300])
          (tbl_meals one_portion) [] 4) /\
  run (post_register sample_hash "salt"
         (register_request "Dee" "bo@example.org" "pw" None))
      (calm 300) one_portion = (AlreadyRegistered, one_portion).
Proof.
  split.
  - refine (proj1 (register_outcome sample_hash "salt" "Dee" "dee@example.org"
              "pw" "salt$pw" (Some "admin") (calm 300) one_portion
              _ _ _ eq_refl eq_refl) eq_refl); discriminate.
  - refine (proj1 (proj2 (register_outcome sample_hash "salt" "Dee"
              "bo@example.org" "pw" "salt$pw" None (calm 300) one_portion
              _ _ _ eq_refl eq_refl)) _ eq_refl); discriminate.
Defined.

Lemma register_then_login_witness :
  fst (run (post_login "secret" sample_sign sample_compare
              (login_request "dee@example.org" "pw")) (calm 400)
           (snd (run (post_register sample_hash "salt"
                        (register_request "Dee" "dee@example.org" "pw" None))
                     (calm 300) one_portion))) =
  res 200 (login_json "Login successful!" "dee@example.org.secret"
             4 "Dee" "dee@example.org" "user").
Proof.
  refine (f_equal fst (proj1 (register_then_login "secret" sample_sign sample_hash
            sample_compare "salt" "Dee" "dee@example.org" "pw" "salt$pw" "pw"
            None (calm 300) (calm 400) one_portion
            _ _ _ _ eq_refl eq_refl eq_refl eq_refl) eq_refl)); discriminate.
Defined.

(** ** Reservations served one at a time *)

(** Every way a reservation request served alone can end. *)
Lemma reserve_effect req user e d :
  let r := fst (run (reserve req user) e d) in
  let d' := snd (run (reserve req user) e d) in
  (d' = d /\ status r <> 201) \/
  (exists meal,
     claims.role user = "user" /\
     select_recent (now (e 0%nat)) (claims.id user) d = None /\
     find_meal (params_id req) d = Some meal /\
     (0 < meals.portions_available meal)%Q /\
     ((r = Reserved (next_rowid (map reservations.id (tbl_reservations d)))
                    (claims.id user) (params_id req) /\
       d' = committed (now (e 2%nat)) (claims.id user) (params_id req) d) \/
      (r = DatabaseError /\ is_Some (fault (e 3%nat)) /\
       d' = inserted (now (e 2%nat)) (claims.id user) (params_id req) d))).
Proof.
  unfold find_meal. cbv zeta.
  destruct (run (reserve req user) e d) as [r d'] eqn:Hrun. simpl.
  unfold reserve in Hrun. walk; try (by left).
  all: right; eexists; (split; [by apply String.eqb_eq, negb_false_iff|]).
  all: do 2 (split; [eassumption|]); (split; [by apply portion_test_false|]).
  - left. done.
  - right. done.
Qed.

(** X7. Served alone, the reservation route writes in two ways only. It
    answers 201 exactly when both writes went through: the reservation row is
    in and the named meal, which had a portion left, is decremented. Any other
    answer leaves users and meals as they were, and the reservations too,
    except when the decrement statement failed after the insert (answer 500).
    A meal is never decremented without its reservation being stored. *)
Theorem reserve_writes (req : request) (user : claims.t) (e : nat -> env)
    (d : database) :
  let r := fst (run (reserve req user) e d) in
  let d' := snd (run (reserve req user) e d) in
  (status r = 201 ->
     d' = committed (now (e 2%nat)) (claims.id user) (params_id req) d /\
     exists meal, find_meal (params_id req) d = Some meal /\
                  (0 < meals.portions_available meal)%Q) /\
  (status r <> 201 ->
     tbl_users d' = tbl_users d /\ tbl_meals d' = tbl_meals d /\
     (tbl_reservations d' = tbl_reservations d \/
      r = DatabaseError /\ is_Some (fault (e 3%nat)) /\
      d' = inserted (now (e 2%nat)) (claims.id user) (params_id req) d)).
Proof.
  intros r d'. subst r d'.
  destruct (reserve_effect req user e d)
    as [[-> Hs]|(meal & _ & _ & Hf & Hp & [[-> ->]|(-> & Hfault & ->)])].
  - split; [done|]. auto.
  - split; [eauto|]. intros Hs. by destruct Hs.
  - split; [done|]. intros _. repeat split; [right; done].
Qed.

Lemma reserve_writes_witness :
  snd (run (reserve (bearer_of "bo" 1) bo) (calm 200) one_portion) =
    committed 200 2 1 one_portion.
Proof.
  exact (proj1 (proj1 (reserve_writes (bearer_of "bo" 1) bo (calm 200) one_portion)
                  eq_refl)).
Defined.

Lemma never_reserved_not_recent user t d :
  never_reserved user d -> select_recent t (claims.id user) d = None.
Proof.
  intros Hnever. apply select_recent_None. intros r Hin [Hu _].
  by apply (Hnever r Hin).
Qed.

Lemma find_meal_id k d m : find_meal k d = Some m -> meals.id m = k.
Proof.
  unfold find_meal. intros Hf. apply find_some in Hf as [_ Hid].
  by apply Z.eqb_eq.
Qed.

Lemma find_meal_decrement k d m (us : list users.row)
    (rs : list reservations.row) i :
  find_meal k d = Some m ->
  find_meal k (mkdb us (map (decrement k) (tbl_meals d)) rs i) =
    Some (decrement k m).
Proof.
  unfold find_meal. simpl. induction (tbl_meals d) as [|r l IH]; simpl; [done|].
  destruct (Z.eqb_spec (meals.id r) k) as [Hk|Hk].
  - intros [= ->]. unfold decrement at 1. rewrite (proj2 (Z.eqb_eq _ _) Hk).
    simpl. by rewrite (proj2 (Z.eqb_eq _ _) Hk).
  - intros Hf. unfold decrement at 1. rewrite (proj2 (Z.eqb_neq _ _) Hk).
    rewrite (proj2 (Z.eqb_neq _ _) Hk). by apply IH.
Qed.

Lemma decrement_portions k m :
  meals.id m = k ->
  meals.portions_available (decrement k m) = (meals.portions_available m - 1)%Q.
Proof. intros Hk. unfold decrement. by rewrite (proj2 (Z.eqb_eq _ _) Hk). Qed.

(** One eligible client served alone against a meal that exists. *)
Lemma reserve_eligible req user e d m :
  claims.role user = "user" -> trouble_free e -> never_reserved user d ->
  find_meal (params_id req) d = Some m ->
  run (reserve req user) e d =
    if Qle_bool (meals.portions_available m) 0 then (SoldOut, d)
    else (Reserved (next_rowid (map reservations.id (tbl_reservations d)))
                   (claims.id user) (params_id req),
          committed (now (e 2%nat)) (claims.id user) (params_id req) d).
Proof.
  intros Hrole He Hnever Hfind.
  pose proof (reserve_past_cooldown req user e d Hrole (He 0%nat)
                (never_reserved_not_recent user _ d Hnever) (He 1%nat)) as Hp.
  rewrite Hfind in Hp.
  destruct (Qle_bool (meals.portions_available m) 0); [apply Hp|].
  apply Hp; apply He.
Qed.

Lemma whole_pred (q : Q) (z : Z) :
  (q == inject_Z z)%Q -> (q - 1 == inject_Z (z - 1))%Q.
Proof.
  intros Hz. rewrite Hz. unfold Z.sub.
  rewrite inject_Z_plus, inject_Z_opp. reflexivity.
Qed.

(** X8. No oversell when requests are served one at a time and the portions
    are an integer. [N] clients with distinct keys, all of role [user] and
    none with a reservation yet, ask one after the other for a meal whose
    portions are the integer [P >= 0], with no storage failure: the first
    [min N P] are answered 201, all the others SoldOut, the meal ends with
    [P - min N P] portions and exactly [min N P] reservations were added. *)
Theorem serial_reservations_never_oversell (req : request)
    (clients : list (claims.t * (nat -> env))) (d : database) (m : meals.row)
    (P : Z) :
  find_meal (params_id req) d = Some m ->
  (meals.portions_available m == inject_Z P)%Q ->
  (0 <= P)%Z ->
  Forall (fun c => claims.role (fst c) = "user" /\ trouble_free (snd c) /\
                   never_reserved (fst c) d) clients ->
  NoDup (map (fun c => claims.id (fst c)) clients) ->
  let n := Nat.min (length clients) (Z.to_nat P) in
  let answers := fst (run_all (map (reservation_of req) clients) d) in
  let d' := snd (run_all (map (reservation_of req) clients) d) in
  length answers = length clients /\
  Forall (fun r => status r = 201) (take n answers) /\
  drop n answers = replicate (length clients - n) SoldOut /\
  (exists m', find_meal (params_id req) d' = Some m' /\
              (meals.portions_available m' == inject_Z (P - Z.of_nat n))%Q) /\
  length (tbl_reservations d') = (length (tbl_reservations d) + n)%nat.
Proof.
  revert d m P.
  induction clients as [|[user e] cs IH]; intros d m P Hfind HP Hp Hall Hnd.
  { simpl. repeat split; [by apply Forall_nil| |lia].
    exists m. split; [done|]. by rewrite Z.sub_0_r. }
  apply Forall_cons in Hall as [(Hrole & He & Hnever) Hall]. simpl in Hrole, He, Hnever.
  simpl in Hnd. apply NoDup_cons in Hnd as [Hfresh Hnd].
  cbn [map run_all reservation_of fst snd length].
  rewrite (reserve_eligible req user e d m) by done.
  destruct (Z.eq_dec P 0) as [Hm0|Hpos].
  - subst P. rewrite no_portion_left by (rewrite HP; apply Qle_refl).
    specialize (IH d m 0 Hfind HP Hp Hall Hnd). cbv zeta in IH.
    simpl Z.to_nat in *. rewrite Nat.min_0_r in *.
    destruct (run_all (map (reservation_of req) cs) d) as [rs d2].
    simpl in *. destruct IH as (Hlen & _ & Hdrop & Hport & Hres).
    rewrite Nat.sub_0_r in *.
    repeat split; [by rewrite Hlen|by apply Forall_nil|by f_equal|done|done].
  - assert (Hqpos : (0 < meals.portions_available m)%Q).
    { rewrite HP. change 0%Q with (inject_Z 0). rewrite <- Zlt_Qlt. lia. }
    rewrite portion_left by done.
    set (d1 := committed _ _ _ d).
    assert (Hfind1 : find_meal (params_id req) d1 = Some (decrement (params_id req) m))
      by (by apply find_meal_decrement).
    assert (Hport1 : (meals.portions_available (decrement (params_id req) m) ==
                      inject_Z (P - 1))%Q).
    { rewrite decrement_portions by (by eapply find_meal_id). by apply whole_pred. }
    assert (Hall1 : Forall (fun c => claims.role (fst c) = "user" /\
                       trouble_free (snd c) /\ never_reserved (fst c) d1) cs).
    { apply Forall_forall. intros c Hc.
      rewrite Forall_forall in Hall. destruct (Hall c Hc) as (? & ? & Hn).
      repeat split; [done..|]. intros r Hr. unfold d1, committed in Hr. simpl in Hr.
      apply elem_of_app in Hr as [Hr|Hr]; [by apply Hn|].
      apply list_elem_of_singleton in Hr. subst r. simpl. intros Heq.
      apply Hfresh. apply list_elem_of_In, in_map_iff. exists c.
      split; [done|by apply list_elem_of_In]. }
    specialize (IH d1 _ (P - 1)%Z Hfind1 Hport1 ltac:(lia) Hall1 Hnd). cbv zeta in IH.
    replace (Z.to_nat P) with (S (Z.to_nat (P - 1))) by lia.
    destruct (run_all (map (reservation_of req) cs) d1) as [rs d2].
    simpl in *. destruct IH as (Hlen & Htake & Hdrop & (m' & Hf' & Hport) & Hres).
    repeat split.
    + by rewrite Hlen.
    + by apply Forall_cons.
    + done.
    + exists m'. split; [done|]. rewrite Hport.
      apply inject_Z_injective. lia.
    + rewrite Hres. unfold d1, committed. simpl. rewrite length_app. simpl. lia.
Qed.

Lemma serial_reservations_never_oversell_witness :
  drop 1 (fst (run_all (map (reservation_of (bearer_of "bo" 1))
                            [(bo, calm 200); (cy, calm 200)]) one_portion))
    = [SoldOut].
Proof.
  refine (proj1 (proj2 (proj2 (serial_reservations_never_oversell
            (bearer_of "bo" 1) [(bo, calm 200); (cy, calm 200)] one_portion _ 1
            eq_refl _ _ _ _)))).
  - reflexivity.
  - lia.
  - repeat constructor; intros r Hr; by apply elem_of_nil in Hr.
  - apply (bool_decide_unpack _). vm_compute. exact I.
Defined.

(** ** The cooldown across requests *)

Lemma stored_row_blocks t userId mealId i created (d : database) us ms last :
  t - created < three_days ->
  exists r, select_recent t userId
              (mkdb us ms (tbl_reservations d ++
                             [reservations.mk i userId mealId created]) last)
            = Some r.
Proof.
  intros Ht.
  destruct (select_recent t userId _) as [r|] eqn:Hrec; [eauto|].
  exfalso. eapply (proj1 (select_recent_None _ _ _) Hrec).
  - simpl. apply elem_of_app. right. by left.
  - split; simpl; [done|lia].
Qed.

(** X9. Once a reservation row of a user is stored at time [t] (the request
    was answered 201, or 500 because only the decrement failed), every
    further request of that user whose cooldown query runs less than three
    days after [t] is answered CooldownActive, whatever meal it names, and
    changes nothing. *)
Theorem cooldown_follows_reservation (req req' : request) (user : claims.t)
    (e e' : nat -> env) (d : database) :
  let r := fst (run (reserve req user) e d) in
  let d' := snd (run (reserve req user) e d) in
  status r = 201 \/ tbl_reservations d' <> tbl_reservations d ->
  fault (e' 0%nat) = None ->
  now (e' 0%nat) - now (e 2%nat) < three_days ->
  run (reserve req' user) e' d' = (CooldownActive, d').
Proof.
  intros r d' Hstored H0 Hsoon. subst r d'.
  destruct (reserve_effect req user e d)
    as [[Hd Hs]|(meal & Hrole & _ & _ & _ & [[_ Hd]|(_ & _ & Hd)])].
  - rewrite Hd in Hstored. by destruct Hstored.
  - rewrite Hd. unfold committed.
    destruct (stored_row_blocks (now (e' 0%nat)) (claims.id user) (params_id req)
                (next_rowid (map reservations.id (tbl_reservations d)))
                (now (e 2%nat)) d (tbl_users d)
                (map (decrement (params_id req)) (tbl_meals d))
                (next_rowid (map reservations.id (tbl_reservations d))) Hsoon)
      as [recent Hrec].
    by destruct (reserve_cooldown req' user e' _ recent Hrole H0 Hrec).
  - rewrite Hd. unfold inserted.
    destruct (stored_row_blocks (now (e' 0%nat)) (claims.id user) (params_id req)
                (next_rowid (map reservations.id (tbl_reservations d)))
                (now (e 2%nat)) d (tbl_users d) (tbl_meals d)
                (next_rowid (map reservations.id (tbl_reservations d))) Hsoon)
      as [recent Hrec].
    by destruct (reserve_cooldown req' user e' _ recent Hrole H0 Hrec).
Qed.

Lemma cooldown_follows_reservation_witness :
  run (reserve (bearer_of "bo" 99) bo) (calm 3800)
      (snd (run (reserve (bearer_of "bo" 1) bo) (calm 200) one_portion)) =
    (CooldownActive, snd (run (reserve (bearer_of "bo" 1) bo) (calm 200) one_portion)).
Proof.
  apply (cooldown_follows_reservation (bearer_of "bo" 1) (bearer_of "bo" 99) bo
           (calm 200) (calm 3800) one_portion).
  - left. reflexivity.
  - reflexivity.
  - vm_compute. reflexivity.
Defined.

(** X10. Served alone with a clock that does not run backwards between the
    cooldown query and the insert, a reservation request keeps the rule that
    no two reservations of one user are less than three days apart. *)
Theorem cooldown_is_kept (req : request) (user : claims.t) (e : nat -> env)
    (d : database) :
  cooldown_respected d ->
  now (e 0%nat) <= now (e 2%nat) ->
  cooldown_respected (snd (run (reserve req user) e d)).
Proof.
  intros Hinv Hclock.
  assert (Hnew : select_recent (now (e 0%nat)) (claims.id user) d = None ->
            forall us ms last i mealId,
              cooldown_respected
                (mkdb us ms (tbl_reservations d ++
                   [reservations.mk i (claims.id user) mealId (now (e 2%nat))]) last)).
  { intros Hrec us ms last i mealId r1 r2 H1 H2 Hu. simpl in H1, H2.
    pose proof (proj1 (select_recent_None _ _ _) Hrec) as Hold.
    unfold is_recent in Hold.
    apply elem_of_app in H1 as [H1|H1], H2 as [H2|H2].
    - by apply Hinv.
    - apply list_elem_of_singleton in H2. subst r2. simpl in *.
      right. left. specialize (Hold r1 H1). lia.
    - apply list_elem_of_singleton in H1. subst r1. simpl in *.
      right. right. specialize (Hold r2 H2). lia.
    - apply list_elem_of_singleton in H1, H2. subst. by left. }
  destruct (reserve_effect req user e d)
    as [[-> _]|(meal & _ & Hrec & _ & _ & [[_ ->]|(_ & _ & ->)])];
    [done|by apply Hnew..].
Qed.

Lemma cooldown_is_kept_witness :
  length (tbl_reservations
            (snd (run (reserve (bearer_of "bo" 1) bo) (calm 600000)
                      regular_customer))) = 4%nat /\
  cooldown_respected
    (snd (run (reserve (bearer_of "bo" 1) bo) (calm 600000) regular_customer)).
Proof.
  split; [reflexivity|].
  apply (cooldown_is_kept (bearer_of "bo" 1) bo (calm 600000) regular_customer).
  - intros r1 r2 H1 H2 Hu. unfold regular_customer in H1, H2. simpl in H1, H2.
    repeat match goal with
           | H : _ ∈ _ :: _ |- _ => apply elem_of_cons in H as [-> | H]
           | H : _ ∈ [] |- _ => by apply elem_of_nil in H
           end;
      simpl in Hu; try discriminate;
      first [ by left
            | right; left; vm_compute; discriminate
            | right; right; vm_compute; discriminate ].
  - simpl. lia.
Defined.

(** ** Two reservations in flight *)

Lemma foldr_max_nonneg (ids : list Z) : 0 <= foldr Z.max 0 ids.
Proof. induction ids; simpl; lia. Qed.

Lemma next_rowid_snoc (ids : list Z) :
  next_rowid (ids ++ [next_rowid ids]) = next_rowid ids + 1.
Proof.
  unfold next_rowid.
  assert (H : forall x, foldr Z.max 0 ids <= x ->
                foldr Z.max 0 (ids ++ [x]) = x).
  { induction ids as [|y l IH]; simpl; intros x Hx; [lia|].
    rewrite IH by lia. lia. }
  rewrite H by lia. lia.
Qed.

(** X11. The availability and cooldown checks are not atomic with the writes.
    When two user-role requests for the same meal take turns statement by
    statement, each passing its cooldown query on the state before either
    write, and the meal has at least one portion, both are answered 201, two
    reservations are stored and the meal is decremented twice. Nothing
    requires the two users to differ or a second portion to exist. Both
    answers carry the key of the second reservation. *)
Theorem checks_and_writes_interleave (req1 req2 : request)
    (user1 user2 : claims.t) (es : nat -> env) (d : database) (m : meals.row) :
  claims.role user1 = "user" -> claims.role user2 = "user" ->
  trouble_free es ->
  params_id req2 = params_id req1 ->
  select_recent (now (es 0%nat)) (claims.id user1) d = None ->
  select_recent (now (es 1%nat)) (claims.id user2) d = None ->
  find_meal (params_id req1) d = Some m ->
  (0 < meals.portions_available m)%Q ->
  let k := params_id req1 in
  let i := next_rowid (map reservations.id (tbl_reservations d)) in
  interleave (taking_turns es) [reserve req1 user1; reserve req2 user2] d =
    ([Respond (Reserved (i + 1) (claims.id user1) k);
      Respond (Reserved (i + 1) (claims.id user2) k)],
     mkdb (tbl_users d)
          (map (decrement k) (map (decrement k) (tbl_meals d)))
          (tbl_reservations d ++
             [reservations.mk i (claims.id user1) k (now (es 4%nat));
              reservations.mk (i + 1) (claims.id user2) k (now (es 5%nat))])
          (i + 1)).
Proof.
  intros Hr1 Hr2 Hes Hk Hrec1 Hrec2 Hfind Hpos k i. subst k i.
  unfold find_meal in Hfind. apply portion_left in Hpos.
  unfold taking_turns, reserve. rewrite Hr1, Hr2, Hk. simpl.
  rewrite exec_calm by apply Hes. simpl. rewrite Hrec1.
  rewrite exec_calm by apply Hes. simpl. rewrite Hrec2.
  rewrite exec_calm by apply Hes. simpl. rewrite Hfind, Hpos.
  rewrite exec_calm by apply Hes. simpl. rewrite Hfind, Hpos.
  rewrite exec_calm by apply Hes. simpl.
  rewrite exec_calm by apply Hes. simpl.
  rewrite exec_calm by apply Hes. simpl.
  rewrite exec_calm by apply Hes. simpl.
  rewrite map_app. simpl. rewrite next_rowid_snoc.
  rewrite <- app_assoc. reflexivity.
Qed.

Lemma checks_and_writes_interleave_witness :
  fst (interleave (taking_turns (calm 200))
         [reserve (bearer_of "bo" 1) bo; reserve (bearer_of "bo" 1) bo]
         one_portion) =
    [Respond (Reserved 2 2 1); Respond (Reserved 2 2 1)].
Proof.
  refine (f_equal fst (checks_and_writes_interleave (bearer_of "bo" 1)
            (bearer_of "bo" 1) bo bo (calm 200) one_portion _
            eq_refl eq_refl _ eq_refl eq_refl eq_refl eq_refl _)).
  - intros i. reflexivity.
  - reflexivity.
Defined.

(** ** Publishing and listing meals *)

Lemma create_meal_stores req user e d title pickup_time p :
  claims.role user = "merchant" ->
  body.title (req_body req) = Some title -> title <> "" ->
  body.portions_available (req_body req) = Some p -> ~ (p == 0)%Q ->
  body.pickup_time (req_body req) = Some pickup_time -> pickup_time <> "" ->
  fault (e 0%nat) = None ->
  let i := next_rowid (map meals.id (tbl_meals d)) in
  let description := or_default (body.description (req_body req)) "" in
  run (create_meal req user) e d =
    (res 201 (meal_json i (claims.id user) title description p pickup_time
                        (now (e 0%nat))),
     mkdb (tbl_users d)
          (tbl_meals d ++ [meals.mk i (claims.id user) title description p
                                    pickup_time (now (e 0%nat))])
          (tbl_reservations d) i).
Proof.
  intros Hrole Ht Htne Hp Hpne Hpk Hpkne H0. unfold create_meal.
  rewrite Hrole, Ht, Hp, Hpk. simpl. rewrite !truthy_string_ne by done.
  rewrite nonzero_is_truthy by done. simpl.
  rewrite exec_calm by done. reflexivity.
Qed.

Lemma same_key_same_user (us : list users.row) u u' :
  NoDup (map users.id us) -> u ∈ us -> u' ∈ us ->
  users.id u = users.id u' -> u = u'.
Proof.
  induction us as [|x us IH]; simpl; intros Hnd Hu Hu' Hid.
  { by apply elem_of_nil in Hu. }
  apply NoDup_cons in Hnd as [Hx Hnd].
  assert (Hin : forall y, y ∈ us -> users.id y ∈ map users.id us).
  { intros y Hy. apply list_elem_of_In, in_map, list_elem_of_In, Hy. }
  apply elem_of_cons in Hu as [->|Hu], Hu' as [->|Hu']; [done| | |by apply IH].
  - destruct Hx. rewrite Hid. by apply Hin.
  - destruct Hx. rewrite <- Hid. by apply Hin.
Qed.

Lemma select_listing_spec d row :
  row ∈ select_listing d <->
  exists m u, m ∈ tbl_meals d /\ u ∈ tbl_users d /\
              meals.merchant_id m = users.id u /\
              row = listing.mk m (users.name u).
Proof.
  unfold select_listing.
  rewrite merge_sort_Permutation, list_elem_of_In, in_flat_map. split.
  - intros (m & Hm & Hrow). apply list_elem_of_In in Hm, Hrow.
    apply join_merchant_spec in Hrow as (u & Hu & Hid & ->). eauto 10.
  - intros (m & u & Hm & Hu & Hid & ->). exists m.
    split; [by apply list_elem_of_In|].
    apply list_elem_of_In, join_merchant_spec. eauto.
Qed.

(** X12. A merchant's POST /meals with title and pickup time present and a
    non-zero [portions_available] stores the meal with an empty description
    when none is given. GET /meals then lists it with the name of the user
    whose key the token carried; when no user has that key the meal is stored
    but never listed; and when the user keys are distinct and the meal is
    strictly newer than every other meal, it is the first row. *)
Theorem published_meal_is_listed (req : request) (user : claims.t)
    (e : nat -> env) (d : database) (title pickup_time : string) (p : Q) :
  claims.role user = "merchant" ->
  body.title (req_body req) = Some title -> title <> "" ->
  body.portions_available (req_body req) = Some p -> ~ (p == 0)%Q ->
  body.pickup_time (req_body req) = Some pickup_time -> pickup_time <> "" ->
  fault (e 0%nat) = None ->
  let row := meals.mk (next_rowid (map meals.id (tbl_meals d))) (claims.id user)
               title (or_default (body.description (req_body req)) "") p
               pickup_time (now (e 0%nat)) in
  let d' := snd (run (create_meal req user) e d) in
  tbl_meals d' = (tbl_meals d ++ [row])%list /\
  (forall u, u ∈ tbl_users d -> users.id u = claims.id user ->
     listing.mk row (users.name u) ∈ select_listing d') /\
  ((forall u, u ∈ tbl_users d -> users.id u <> claims.id user) ->
     forall l, l ∈ select_listing d' -> listing.meal l <> row) /\
  (forall u, u ∈ tbl_users d -> users.id u = claims.id user ->
     NoDup (map users.id (tbl_users d)) ->
     (forall m, m ∈ tbl_meals d -> meals.created_at m < now (e 0%nat)) ->
     head (select_listing d') = Some (listing.mk row (users.name u))).
Proof.
  intros Hrole Ht Htne Hp Hpne Hpk Hpkne H0 row d'. subst d'.
  rewrite (create_meal_stores req user e d title pickup_time p) by done.
  simpl. fold row. set (d' := mkdb _ _ _ _).
  assert (Hlisted : forall u, u ∈ tbl_users d -> users.id u = claims.id user ->
            listing.mk row (users.name u) ∈ select_listing d').
  { intros u Hu Hid. apply select_listing_spec. exists row, u.
    repeat split; [|done|by simpl]. simpl. apply elem_of_app. right. by left. }
  split; [done|]. split; [done|]. split.
  - intros Hnone l Hl Heq. apply select_listing_spec in Hl
      as (m & u & _ & Hu & Hid & ->). simpl in Heq, Hu. subst m.
    by apply (Hnone u Hu).
  - intros u Hu Hid Hnd Hnewer.
    pose proof (Hlisted u Hu Hid) as Hin.
    pose proof (@StronglySorted_merge_sort _ listing_order _ listing_order_trans
                  listing_order_total
                  (flat_map (join_merchant (tbl_users d')) (tbl_meals d')))
      as Hsorted.
    fold (select_listing d') in Hsorted.
    destruct (select_listing d') as [|h tl] eqn:Hrows;
      [by apply elem_of_nil in Hin|].
    simpl. f_equal.
    assert (Hh : h ∈ select_listing d') by (rewrite Hrows; left).
    apply select_listing_spec in Hh as (m' & u' & Hm' & Hu' & Hid' & ->).
    simpl in Hm', Hu'.
    assert (Hrow : m' = row).
    { apply elem_of_app in Hm' as [Hold|Hnew];
        [|by apply list_elem_of_singleton in Hnew].
      exfalso. specialize (Hnewer m' Hold).
      apply elem_of_cons in Hin as [Heq|Hintl].
      - injection Heq as Hm _. rewrite <- Hm in Hnewer. simpl in Hnewer. lia.
      - apply StronglySorted_inv in Hsorted as [_ Hall].
        rewrite Forall_forall in Hall. specialize (Hall _ Hintl).
        unfold listing_order, newer_first in Hall. simpl in Hall. lia. }
    subst m'. f_equal. f_equal.
    apply (same_key_same_user (tbl_users d)); [done..|].
    rewrite Hid. by rewrite <- Hid'.
Qed.

Lemma published_meal_is_listed_witness :
  head (select_listing
          (snd (run (create_meal (mkreq None 0 (meal_body 3)) ana)
                    (calm 200) one_portion))) =
    Some (listing.mk (meals.mk 2 1 "Stew" "" 3 "2024-05-03 12:00:00" 200) "Ana").
Proof.
  refine (proj2 (proj2 (proj2 (published_meal_is_listed (mkreq None 0 (meal_body 3))
            ana (calm 200) one_portion "Stew" "2024-05-03 12:00:00" 3
            eq_refl eq_refl _ eq_refl _ eq_refl _ eq_refl)))
            (users.mk 1 "Ana" "ana@example.org" "salt$soup" "merchant" 0)
            _ eq_refl _ _); try discriminate.
  - left.
  - apply (bool_decide_unpack _). vm_compute. exact I.
  - intros m Hm. apply list_elem_of_singleton in Hm. subst m. simpl. lia.
Defined.

(** ** What every operation keeps, served alone *)

Lemma create_meal_db_effect req user e d :
  let d' := snd (run (create_meal req user) e d) in
  d' = d \/
  exists row, d' = mkdb (tbl_users d) (tbl_meals d ++ [row])
                        (tbl_reservations d) (meals.id row).
Proof.
  unfold create_meal. walk; try (by left).
  right. by eexists (meals.mk _ _ _ _ _ _ _).
Qed.

Section Operations.
Variable JWT_SECRET : string.
Variable jwt_sign : claims.t -> string -> string -> Z -> string.
Variable jwt_verify : string -> string -> Z -> option claims.t.
Variable bcrypt_hash : string -> Z -> string -> outcome string.
Variable bcrypt_compare : string -> string -> outcome bool.

Local Abbreviation serve :=
  (serve JWT_SECRET jwt_sign jwt_verify bcrypt_hash bcrypt_compare).

Lemma register_db_effect salt req e d :
  let d' := snd (run (post_register bcrypt_hash salt req) e d) in
  d' = d \/
  exists row,
    (users.role row = "user" \/ users.role row = "merchant") /\
    users.name row <> "" /\ users.email row <> "" /\
    d' = mkdb (tbl_users d ++ [row]) (tbl_meals d) (tbl_reservations d)
              (users.id row).
Proof.
  unfold post_register. walk; try (by left).
  all: right; eexists (users.mk _ _ _ _ _ _); simpl.
  all: match goal with
       | H : falsy ?n || falsy ?m || falsy _ = false |- _ =>
           apply orb_false_iff in H as [[Hn Hm]%orb_false_iff _];
           unfold falsy, truthy, truthy_string in Hn, Hm;
           destruct (String.eqb_spec n ""), (String.eqb_spec m ""); try done
       end.
  all: repeat split; eauto.
Qed.

(** Every database an operation served alone can leave behind. *)
Lemma serve_db_effect o e d :
  let d' := snd (run (serve o) e d) in
  d' = d \/
  (exists row,
     ((users.role row = "user" \/ users.role row = "merchant") /\
      users.name row <> "" /\ users.email row <> "") /\
     d' = mkdb (tbl_users d ++ [row]) (tbl_meals d) (tbl_reservations d)
               (users.id row)) \/
  (exists row, d' = mkdb (tbl_users d) (tbl_meals d ++ [row])
                         (tbl_reservations d) (meals.id row)) \/
  (exists t userId mealId meal,
     find_meal mealId d = Some meal /\
     (d' = committed t userId mealId d \/ d' = inserted t userId mealId d)).
Proof.
  destruct o as [salt req|req|t req|req|t req]; simpl.
  - destruct (register_db_effect salt req e d) as [->|(row & ? & ? & ? & ->)];
      [by left|]. right. left. exists row. done.
  - left. unfold post_login. walk; done.
  - unfold post_meals.
    destruct (authenticateToken_cases JWT_SECRET jwt_verify t req (create_meal req))
      as [[r ->]|(user & _ & ->)]; [by left|].
    destruct (create_meal_db_effect req user e d) as [->|[row ->]]; [by left|].
    right. right. left. by exists row.
  - left. unfold get_meals. walk; done.
  - unfold post_meals_reserve.
    destruct (authenticateToken_cases JWT_SECRET jwt_verify t req (reserve req))
      as [[r ->]|(user & _ & ->)]; [by left|].
    destruct (reserve_effect req user e d)
      as [[-> _]|(meal & _ & _ & Hf & _ & [[_ ->]|(_ & _ & ->)])]; [by left|..].
    + right. right. right. eauto 10.
    + right. right. right. eauto 10.
Qed.

(** X13. Every operation served alone keeps what registration checks of a
    user: the role is [user] or [merchant] and name and email are not empty.
    In particular no request can store another role. *)
Theorem stored_users_stay_valid (o : operation) (e : nat -> env) (d : database) :
  users_valid d -> users_valid (snd (run (serve o) e d)).
Proof.
  intros Hv. unfold users_valid in *.
  destruct (serve_db_effect o e d)
    as [->|[(row & Hrow & ->)|[(row & ->)|(t & u & k & meal & _ & [-> | ->])]]];
    simpl; try done.
  apply Forall_app. split; [done|]. by apply Forall_singleton.
Qed.

(** X14. Every operation served alone keeps that each reservation names a
    meal of the meals table: the reservation route looks the meal up before
    it inserts, and no route removes a meal. (The foreign key itself is not
    enforced by the store.) *)
Theorem reservations_keep_their_meal (o : operation) (e : nat -> env)
    (d : database) :
  reservations_reference_meals d ->
  reservations_reference_meals (snd (run (serve o) e d)).
Proof.
  intros Href.
  assert (Hcommit : forall t u k meal us last decr,
    find_meal k d = Some meal ->
    reservations_reference_meals
      (mkdb us (map (if decr : bool then decrement k else id) (tbl_meals d))
            (tbl_reservations d ++
               [reservations.mk (next_rowid (map reservations.id (tbl_reservations d)))
                                u k t]) last)).
  { intros t u k meal us last decr Hfind r Hr. simpl in *.
    assert (Hids : forall m, m ∈ tbl_meals d ->
              exists m', m' ∈ map (if decr then decrement k else id) (tbl_meals d) /\
                         meals.id m' = meals.id m).
    { intros m Hm. exists ((if decr then decrement k else id) m). split.
      - apply list_elem_of_In, in_map, list_elem_of_In, Hm.
      - destruct decr; [|done]. unfold decrement.
        by destruct (meals.id m =? k). }
    apply elem_of_app in Hr as [Hr|Hr].
    - destruct (Href r Hr) as (m & Hm & Hid).
      destruct (Hids m Hm) as (m' & Hm' & Hid'). exists m'. split; [done|congruence].
    - apply list_elem_of_singleton in Hr. subst r. simpl.
      pose proof (find_meal_id _ _ _ Hfind) as Hk.
      unfold find_meal in Hfind. apply find_some in Hfind as [Hin _].
      apply list_elem_of_In in Hin.
      destruct (Hids meal Hin) as (m' & Hm' & Hid'). exists m'.
      split; [done|congruence]. }
  destruct (serve_db_effect o e d)
    as [->|[(row & _ & ->)|[(row & ->)|(t & u & k & meal & Hf & [-> | ->])]]];
    try done.
  - intros r Hr. destruct (Href r Hr) as (m & Hm & Hid). exists m.
    split; [|done]. simpl. apply elem_of_app. by left.
  - apply (Hcommit t u k meal _ _ true Hf).
  - unfold inserted. specialize (Hcommit t u k meal (tbl_users d)
      (next_rowid (map reservations.id (tbl_reservations d))) false Hf).
    simpl in Hcommit. by rewrite map_id in Hcommit.
Qed.

End Operations.

Lemma stored_users_stay_valid_witness :
  users_valid
    (snd (run (serve "secret" sample_sign sample_verify sample_hash sample_compare
                 (op_register "salt"
                    (register_request "Dee" "dee@example.org" "pw" (Some "admin"))))
              (calm 300) one_portion)).
Proof.
  apply (stored_users_stay_valid "secret" sample_sign sample_verify sample_hash
           sample_compare).
  unfold users_valid. simpl.
  repeat (apply Forall_cons; split; [simpl; repeat split; auto; discriminate|]).
  apply Forall_nil. exact I.
Defined.

Lemma reservations_keep_their_meal_witness :
  reservations_reference_meals
    (snd (run (serve "secret" sample_sign sample_verify sample_hash sample_compare
                 (op_reserve 200 (bearer_of "bo" 1)))
              (calm 200) one_portion)).
Proof.
  apply (reservations_keep_their_meal "secret" sample_sign sample_verify
           sample_hash sample_compare).
  intros r Hr. by apply elem_of_nil in Hr.
Defined.

(** ** Refusals of login and registration *)

Section Refusals.
Variable JWT_SECRET : string.
Variable jwt_sign : claims.t -> string -> string -> Z -> string.
Variable bcrypt_hash : string -> Z -> string -> outcome string.
Variable bcrypt_compare : string -> string -> outcome bool.

Local Abbreviation login := (post_login JWT_SECRET jwt_sign bcrypt_compare).

(** X15. Login never writes, and it answers 200 only when the request
    carried an email and a password, the statement did not fail, a user with
    that email is stored and bcrypt accepted the password against that user's
    hash. An email that is not registered is answered 400 "User not found.". *)
Theorem login_is_sound (req : request) (e : nat -> env) (d : database) :
  snd (run (login req) e d) = d /\
  (status (fst (run (login req) e d)) = 200 ->
   exists email password user,
     body.email (req_body req) = Some email /\
     body.password (req_body req) = Some password /\
     fault (e 0%nat) = None /\
     find_user email d = Some user /\
     bcrypt_compare password (users.password_hash user) = Ok true) /\
  (forall email password,
     body.email (req_body req) = Some email -> email <> "" ->
     body.password (req_body req) = Some password -> password <> "" ->
     fault (e 0%nat) = None -> find_user email d = None ->
     fst (run (login req) e d) = UserNotFound).
Proof.
  split; [|split].
  - unfold post_login. walk; done.
  - unfold post_login, find_user. walk; try done.
    intros _. eexists _, _, _. repeat split; eauto.
  - intros email password He Hene Hp Hpne H0 Hf. unfold post_login.
    rewrite He, Hp, !truthy_string_ne by done. simpl.
    rewrite exec_calm by done. simpl. unfold find_user in Hf. by rewrite Hf.
Qed.

(** X16. A registration that is not answered 201 stores nothing. When the
    insert fails, the answer is chosen by the text of the error: 400 "Email
    is already registered." if the message contains "UNIQUE constraint
    failed", 500 otherwise, so any storage failure whose message happens to
    contain that text is reported as a duplicate email. *)
Theorem register_refusals (salt name email password hash : string)
    (role : option string) (e : nat -> env) (d : database) :
  let req := register_request name email password role in
  (forall req', status (fst (run (post_register bcrypt_hash salt req') e d)) <> 201 ->
     snd (run (post_register bcrypt_hash salt req') e d) = d) /\
  (name <> "" -> email <> "" -> password <> "" ->
   bcrypt_hash password 10 salt = Ok hash ->
   forall msg, fault (e 0%nat) = Some msg ->
     run (post_register bcrypt_hash salt req) e d =
       (if includes "UNIQUE constraint failed" msg
        then AlreadyRegistered else DatabaseError, d)) /\
  ((name = "" \/ email = "" \/ password = "") ->
     run (post_register bcrypt_hash salt req) e d = (FieldsRequired, d) /\
     trace (post_register bcrypt_hash salt req) e d = []).
Proof.
  intros req. subst req. split; [|split].
  - intros req'. unfold post_register. walk; done.
  - intros Hn He Hp Hh msg Hmsg. unfold post_register, register_request. simpl.
    rewrite !truthy_string_ne by done. simpl. rewrite Hh. simpl.
    rewrite (exec_fault _ _ _ msg) by done.
    by destruct (includes _ msg).
  - intros Hempty. unfold post_register, register_request. simpl.
    assert (Hf : falsy name || falsy email || falsy password = true).
    { destruct Hempty as [-> | [-> | ->]].
      - done.
      - change (falsy "") with true. by rewrite orb_true_r.
      - change (falsy "") with true. by rewrite orb_true_r. }
    by rewrite Hf.
Qed.

End Refusals.

Lemma login_is_sound_witness :
  fst (run (post_login "secret" sample_sign sample_compare
              (login_request "eve@example.org" "soup")) (calm 200) one_portion)
    = UserNotFound.
Proof.
  refine (proj2 (proj2 (login_is_sound "secret" sample_sign sample_compare
            (login_request "eve@example.org" "soup") (calm 200) one_portion))
            "eve@example.org" "soup" eq_refl _ eq_refl _ eq_refl eq_refl);
    discriminate.
Defined.

Lemma register_refusals_witness :
  run (post_register sample_hash "salt"
         (register_request "Dee" "dee@example.org" "pw" None))
      (fun _ => mkenv 300 (Some "SQLITE_CONSTRAINT: UNIQUE constraint failed: index 'x'"))
      one_portion = (AlreadyRegistered, one_portion) /\
  run (post_register sample_hash "salt"
         (register_request "Dee" "" "pw" None)) (calm 300) one_portion =
    (FieldsRequired, one_portion).
Proof.
  split.
  - refine (proj1 (proj2 (register_refusals sample_hash "salt" "Dee"
              "dee@example.org" "pw" "salt$pw" None
              (fun _ => mkenv 300 (Some "SQLITE_CONSTRAINT: UNIQUE constraint failed: index 'x'"))
              one_portion))
              _ _ _ eq_refl
              "SQLITE_CONSTRAINT: UNIQUE constraint failed: index 'x'" eq_refl);
      discriminate.
  - refine (proj1 (proj2 (proj2 (register_refusals sample_hash "salt" "Dee"
              "" "pw" "" None (calm 300) one_portion)) _)).
    right. left. reflexivity.
Defined.

(** ** The schema, table by table *)

Section SchemaLookup.
Import Schema.



End SchemaLookup.

(** ** Accounting for portions, one request at a time *)



